(** * Terminal interface: the agent turn loop, its transcript and its
      save/load commands

    A shallow embedding of [src/terminal_interface.py].  The Python program
    keeps the conversation as a list of dictionaries ([self.messages]); the
    embedding keeps it as a list of JSON-like values, threads the outside
    world (the remote API, the tools, the file system) explicitly, and
    returns what the program prints as a list of lines. *)

From Stdlib Require Import String Ascii List ZArith Lia Bool Arith.
From Stdlib Require Import DecimalString DecimalZ DecimalFacts DecimalPos.
Import ListNotations.
Open Scope string_scope.

Set Warnings "-register-all".

(** ** Python values that occur in a transcript

    [None], booleans, integers, strings, lists and dictionaries.  A Python
    [dict] keeps insertion order, and [json.dumps] prints in that order, so a
    dictionary is an association list; a Python string is a sequence of code
    points, of which the model keeps those below 256 (one [ascii] each).
    Floating-point numbers, and strings with a code point of 256 or more,
    are outside the model; where the program reads one from a file the
    model says so (see [Json.Beyond]). *)

Inductive json : Type :=
| JNull
| JBool (b : bool)
| JNum (n : Z)
| JStr (s : string)
| JArr (items : list json)
| JObj (members : list (string * json)).

(** [d.get(k)] / [d[k]]: the value bound to [k], if any. *)
Fixpoint dict_get (k : string) (d : list (string * json)) : option json :=
  match d with
  | [] => None
  | (k', v) :: d' => if String.eqb k k' then Some v else dict_get k d'
  end.

(** [d[k] = v]: replaces the binding in place, or adds it at the end. *)
Fixpoint dict_set (k : string) (v : json) (d : list (string * json))
  : list (string * json) :=
  match d with
  | [] => [(k, v)]
  | (k', v') :: d' =>
      if String.eqb k k' then (k', v) :: d' else (k', v') :: dict_set k v d'
  end.

(** [m[k]] on a value that is expected to be a dictionary. *)
Definition field (k : string) (m : json) : option json :=
  match m with
  | JObj d => dict_get k d
  | _ => None
  end.

(** Truth value of an optional string attribute ([if result.error:]):
    [None] and the empty string are false. *)
Definition truthy (o : option string) : bool :=
  match o with
  | Some s => negb (String.eqb s "")
  | None => false
  end.

Definition text_of (o : option string) : string :=
  match o with
  | Some s => s
  | None => ""
  end.

(** ** JSON text: [json.dumps] and [json.loads] *)

Module Json.

Definition quote : ascii := "034".
Definition backslash : ascii := "092".
Definition newline : ascii := "010".

(** *** Encoding ([json.dumps], [ensure_ascii=True]) *)

Definition hex_digit (n : nat) : ascii :=
  match String.get n "0123456789abcdef" with
  | Some c => c
  | None => "0"
  end.

(** One character of a string literal, as [py_encode_basestring_ascii]
    writes it: the two-character escapes, the character itself when it is
    printable ASCII, a [\u00xx] escape otherwise. *)
Definition escape_char (c : ascii) : string :=
  let n := nat_of_ascii c in
  if Ascii.eqb c quote then String backslash (String quote "")
  else if Ascii.eqb c backslash then String backslash (String backslash "")
  else if (n =? 10)%nat then String backslash "n"
  else if (n =? 13)%nat then String backslash "r"
  else if (n =? 9)%nat then String backslash "t"
  else if (n =? 8)%nat then String backslash "b"
  else if (n =? 12)%nat then String backslash "f"
  else if ((32 <=? n) && (n <=? 126))%nat then String c ""
  else String backslash
         (String "u" (String "0" (String "0"
            (String (hex_digit (n / 16)) (String (hex_digit (n mod 16)) ""))))).

Fixpoint escape (s : string) : string :=
  match s with
  | EmptyString => ""
  | String c s' => escape_char c ++ escape s'
  end.

Definition encode_string (s : string) : string :=
  String quote (escape s ++ String quote "").

Definition encode_int (n : Z) : string :=
  NilEmpty.string_of_int (Z.to_int n).

Fixpoint spaces (n : nat) : string :=
  match n with
  | O => ""
  | S n' => String " " (spaces n')
  end.

(** With [indent=k] every item starts on a line of its own, indented by
    [k] spaces per nesting level, and items are separated by [","]; without
    it nothing is inserted and items are separated by [", "]. *)
Definition newline_indent (indent : option nat) (level : nat) : string :=
  match indent with
  | Some k => String newline (spaces (k * level))
  | None => ""
  end.

Definition item_separator (indent : option nat) : string :=
  match indent with
  | Some _ => ","
  | None => ", "
  end.

Fixpoint encode (indent : option nat) (level : nat) (v : json) : string :=
  match v with
  | JNull => "null"
  | JBool true => "true"
  | JBool false => "false"
  | JNum n => encode_int n
  | JStr s => encode_string s
  | JArr [] => "[]"
  | JArr items =>
      "[" ++ newline_indent indent (S level)
      ++ String.concat (item_separator indent ++ newline_indent indent (S level))
           (map (encode indent (S level)) items)
      ++ newline_indent indent level ++ "]"
  | JObj [] => "{}"
  | JObj members =>
      "{" ++ newline_indent indent (S level)
      ++ String.concat (item_separator indent ++ newline_indent indent (S level))
           (map (fun kv => encode_string (fst kv) ++ ": "
                           ++ encode indent (S level) (snd kv)) members)
      ++ newline_indent indent level ++ "}"
  end.

(** [json.dumps(v)] and [json.dumps(v, indent=k)]. *)
Definition dumps (v : json) : string := encode None 0 v.
Definition dumps_indent (k : nat) (v : json) : string := encode (Some k) 0 v.

(** *** Decoding ([json.loads]) *)

Definition is_ws (c : ascii) : bool :=
  let n := nat_of_ascii c in
  ((n =? 32) || (n =? 9) || (n =? 10) || (n =? 13))%nat.

Fixpoint skip_ws (s : string) : string :=
  match s with
  | String c s' => if is_ws c then skip_ws s' else s
  | EmptyString => ""
  end.

Definition hex_value (c : ascii) : option nat :=
  let n := nat_of_ascii c in
  if ((48 <=? n) && (n <=? 57))%nat then Some (n - 48)
  else if ((97 <=? n) && (n <=? 102))%nat then Some (n - 87)
  else if ((65 <=? n) && (n <=? 70))%nat then Some (n - 55)
  else None.

Definition hex4 (a b c d : ascii) : option nat :=
  match hex_value a, hex_value b, hex_value c, hex_value d with
  | Some x, Some y, Some z, Some w => Some (((x * 16 + y) * 16 + z) * 16 + w)
  | _, _, _, _ => None
  end.

(** The character a two-character escape stands for. *)
Definition unescape (e : ascii) : option ascii :=
  if Ascii.eqb e quote then Some quote
  else if Ascii.eqb e backslash then Some backslash
  else if Ascii.eqb e "/" then Some "/"%char
  else if Ascii.eqb e "b" then Some "008"%char
  else if Ascii.eqb e "f" then Some "012"%char
  else if Ascii.eqb e "n" then Some "010"%char
  else if Ascii.eqb e "r" then Some "013"%char
  else if Ascii.eqb e "t" then Some "009"%char
  else None.

(** What a scanner finds at the head of a text: a value of the model and
    the text after it; or a value that Python reads and the model does not
    have (a float, a string with a code point of 256 or more), and the text
    after it; or nothing that the decoder accepts. *)
Inductive Scan (A : Type) : Type :=
| Found (a : A) (rest : string)
| Outside (rest : string)
| Bad.

Arguments Found {A} a rest.
Arguments Outside {A} rest.
Arguments Bad {A}.

(** The text was accepted, but what it holds is outside the model. *)
Definition outside {A B : Type} (r : Scan A) : Scan B :=
  match r with
  | Found _ rest => Outside rest
  | Outside rest => Outside rest
  | Bad => Bad
  end.

Definition prepend (c : ascii) (r : Scan string) : Scan string :=
  match r with
  | Found s rest => Found (String c s) rest
  | Outside rest => Outside rest
  | Bad => Bad
  end.

(** The body of a string literal, from just after its opening quote: the
    decoded string and the text after the closing quote.  Raw control
    characters are refused (the decoder is strict).  A [\u] escape of a code
    point of 256 or more (a surrogate included) is accepted, and the string
    it is part of is outside the model. *)
Fixpoint scan_string (s : string) : Scan string :=
  match s with
  | EmptyString => Bad
  | String c s1 =>
      if Ascii.eqb c quote then Found "" s1
      else if Ascii.eqb c backslash then
        match s1 with
        | EmptyString => Bad
        | String e s2 =>
            if Ascii.eqb e "u" then
              match s2 with
              | String h1 (String h2 (String h3 (String h4 s3))) =>
                  match hex4 h1 h2 h3 h4 with
                  | Some n =>
                      if (n <? 256)%nat then prepend (ascii_of_nat n) (scan_string s3)
                      else outside (scan_string s3)
                  | None => Bad
                  end
              | _ => Bad
              end
            else
              match unescape e with
              | Some c' => prepend c' (scan_string s2)
              | None => Bad
              end
        end
      else if (nat_of_ascii c <? 32)%nat then Bad
      else prepend c (scan_string s1)
  end.

Definition digit_of_char (c : ascii) : option (Decimal.uint -> Decimal.uint) :=
  match nat_of_ascii c - 48, (48 <=? nat_of_ascii c)%nat with
  | 0, true => Some Decimal.D0
  | 1, _ => Some Decimal.D1
  | 2, _ => Some Decimal.D2
  | 3, _ => Some Decimal.D3
  | 4, _ => Some Decimal.D4
  | 5, _ => Some Decimal.D5
  | 6, _ => Some Decimal.D6
  | 7, _ => Some Decimal.D7
  | 8, _ => Some Decimal.D8
  | 9, _ => Some Decimal.D9
  | _, _ => None
  end.

(** The longest run of decimal digits at the head of [s]. *)
Fixpoint scan_digits (s : string) : Decimal.uint * string :=
  match s with
  | EmptyString => (Decimal.Nil, "")
  | String c s' =>
      match digit_of_char c with
      | Some k => let (d, rest) := scan_digits s' in (k d, rest)
      | None => (Decimal.Nil, s)
      end
  end.

(** The integer part of a number is ["0"] or a run of digits that does not
    start with ["0"]. *)
Definition scan_nat (s : string) : option (Decimal.uint * string) :=
  match s with
  | String c s' =>
      if Ascii.eqb c "0" then Some (Decimal.D0 Decimal.Nil, s')
      else
        match scan_digits s with
        | (Decimal.Nil, _) => None
        | (d, rest) => Some (d, rest)
        end
  | EmptyString => None
  end.

(** A fraction: a point and at least one digit.  The text after it, when
    there is one. *)
Definition scan_fraction (s : string) : option string :=
  match s with
  | String p (String c s') =>
      if Ascii.eqb p "." then
        match digit_of_char c with
        | Some _ => Some (snd (scan_digits s'))
        | None => None
        end
      else None
  | _ => None
  end.

(** An exponent: [e] or [E], a sign or none, and at least one digit.  The
    text after it, when there is one. *)
Definition scan_exponent (s : string) : option string :=
  match s with
  | String c s1 =>
      if Ascii.eqb c "e" || Ascii.eqb c "E" then
        let s2 :=
          match s1 with
          | String g s' =>
              if Ascii.eqb g "+" || Ascii.eqb g "-" then s' else s1
          | EmptyString => s1
          end in
        match scan_digits s2 with
        | (Decimal.Nil, _) => None
        | (_, rest) => Some rest
        end
      else None
  | EmptyString => None
  end.

(** What makes a number a float: a fraction, an exponent, or both.  When
    neither follows the integer part the number is an integer and the text
    goes on right after it. *)
Definition scan_float_part (s : string) : option string :=
  match scan_fraction s with
  | Some s1 =>
      match scan_exponent s1 with
      | Some s2 => Some s2
      | None => Some s1
      end
  | None => scan_exponent s
  end.

Definition scan_unsigned (negative : bool) (s : string) : Scan json :=
  match scan_nat s with
  | Some (d, rest) =>
      match scan_float_part rest with
      | Some rest' => Outside rest'
      | None =>
          Found (JNum (Z.of_int (if negative then Decimal.Neg d
                                 else Decimal.Pos d))) rest
      end
  | None => Bad
  end.

(** A number: an integer of the model, or a float, which is outside it. *)
Definition scan_number (s : string) : Scan json :=
  match s with
  | String c s' =>
      if Ascii.eqb c "-" then scan_unsigned true s' else scan_unsigned false s
  | EmptyString => Bad
  end.

(** [s] without its prefix [p], when it has it. *)
Fixpoint strip_prefix (p s : string) : option string :=
  match p, s with
  | EmptyString, _ => Some s
  | String a p', String b s' => if Ascii.eqb a b then strip_prefix p' s' else None
  | String _ _, EmptyString => None
  end.

(** The constants, then the numbers.  [NaN], [Infinity] and [-Infinity]
    are accepted and are floats. *)
Definition scan_literal (s : string) : Scan json :=
  match strip_prefix "null" s with
  | Some rest => Found JNull rest
  | None =>
    match strip_prefix "true" s with
    | Some rest => Found (JBool true) rest
    | None =>
      match strip_prefix "false" s with
      | Some rest => Found (JBool false) rest
      | None =>
        match strip_prefix "NaN" s with
        | Some rest => Outside rest
        | None =>
          match strip_prefix "Infinity" s with
          | Some rest => Outside rest
          | None =>
            match strip_prefix "-Infinity" s with
            | Some rest => Outside rest
            | None => scan_number s
            end
          end
        end
      end
    end
  end.

(** [dict(pairs)]: a repeated key keeps its first position and takes its
    last value. *)
Definition dict_of_pairs (pairs : list (string * json)) : list (string * json) :=
  fold_left (fun d kv => dict_set (fst kv) (snd kv) d) pairs [].

(** The text after [c], when [s] starts with [c]. *)
Definition expect (c : ascii) (s : string) : option string :=
  match s with
  | String c' s' => if Ascii.eqb c' c then Some s' else None
  | EmptyString => None
  end.

(** The members of a dictionary as they are read: a key of the model with
    its value, or with [None] for a value outside the model.  A later member
    with the same key replaces the value, so the dictionary is outside the
    model when a key is last given such a value. *)
Fixpoint stays_outside (pairs : list (string * option json)) : bool :=
  match pairs with
  | [] => false
  | (k, Some _) :: rest => stays_outside rest
  | (k, None) :: rest =>
      negb (existsb (String.eqb k) (map fst rest)) || stays_outside rest
  end.

Definition inside (kv : string * option json) : string * json :=
  match snd kv with
  | Some v => (fst kv, v)
  | None => (fst kv, JNull)
  end.

(** The recursive-descent decoder.  [fuel] bounds the nesting and the number
    of items; [loads] gives it more than the text can use.  A list or a
    dictionary that holds a value outside the model is read to its end, and
    is outside the model; so is a dictionary with a key outside the
    model. *)
Fixpoint parse_value (fuel : nat) (s : string) {struct fuel} : Scan json :=
  match fuel with
  | O => Bad
  | S fuel' =>
      match skip_ws s with
      | EmptyString => Bad
      | String c s1 =>
          if Ascii.eqb c "[" then
            match expect "]" (skip_ws s1) with
            | Some s2 => Found (JArr []) s2
            | None =>
                match parse_items fuel' s1 with
                | Found items s2 => Found (JArr items) s2
                | Outside s2 => Outside s2
                | Bad => Bad
                end
            end
          else if Ascii.eqb c "{" then
            match expect "}" (skip_ws s1) with
            | Some s2 => Found (JObj []) s2
            | None =>
                match parse_members fuel' s1 with
                | Found pairs s2 =>
                    if stays_outside pairs then Outside s2
                    else Found (JObj (dict_of_pairs (map inside pairs))) s2
                | Outside s2 => Outside s2
                | Bad => Bad
                end
            end
          else if Ascii.eqb c quote then
            match scan_string s1 with
            | Found str s2 => Found (JStr str) s2
            | Outside s2 => Outside s2
            | Bad => Bad
            end
          else scan_literal (String c s1)
      end
  end
with parse_items (fuel : nat) (s : string) {struct fuel} : Scan (list json) :=
  match fuel with
  | O => Bad
  | S fuel' =>
      let more (first : option json) (s1 : string) : Scan (list json) :=
        match expect "," (skip_ws s1) with
        | Some s2 =>
            match first, parse_items fuel' s2 with
            | Some v, Found items s3 => Found (v :: items) s3
            | _, r => outside r
            end
        | None =>
            match expect "]" (skip_ws s1) with
            | Some s2 =>
                match first with
                | Some v => Found [v] s2
                | None => Outside s2
                end
            | None => Bad
            end
        end in
      match parse_value fuel' s with
      | Found v s1 => more (Some v) s1
      | Outside s1 => more None s1
      | Bad => Bad
      end
  end
with parse_members (fuel : nat) (s : string) {struct fuel}
  : Scan (list (string * option json)) :=
  match fuel with
  | O => Bad
  | S fuel' =>
      let more (first : option (string * option json)) (s4 : string)
        : Scan (list (string * option json)) :=
        match expect "," (skip_ws s4) with
        | Some s5 =>
            match first, parse_members fuel' s5 with
            | Some kv, Found pairs s6 => Found (kv :: pairs) s6
            | _, r => outside r
            end
        | None =>
            match expect "}" (skip_ws s4) with
            | Some s5 =>
                match first with
                | Some kv => Found [kv] s5
                | None => Outside s5
                end
            | None => Bad
            end
        end in
      let value (key : option string) (s2 : string)
        : Scan (list (string * option json)) :=
        match expect ":" (skip_ws s2) with
        | Some s3 =>
            match parse_value fuel' s3 with
            | Found v s4 => more (option_map (fun k => (k, Some v)) key) s4
            | Outside s4 => more (option_map (fun k => (k, None)) key) s4
            | Bad => Bad
            end
        | None => Bad
        end in
      match expect quote (skip_ws s) with
      | Some s1 =>
          match scan_string s1 with
          | Found key s2 => value (Some key) s2
          | Outside s2 => value None s2
          | Bad => Bad
          end
      | None => Bad
      end
  end.

(** What a text that is accepted holds, by its first character: a list, a
    dictionary, a string, or else a number. *)
Inductive Kind : Type :=
| AList
| ADict
| AString
| AFloat.

Definition kind_of (s : string) : Kind :=
  match skip_ws s with
  | String c _ =>
      if Ascii.eqb c "[" then AList
      else if Ascii.eqb c "{" then ADict
      else if Ascii.eqb c quote then AString
      else AFloat
  | EmptyString => AFloat
  end.

(** What [json.loads] does with a text: it returns a value of the model, or
    a value that is outside the model (a float, a string with a code point
    of 256 or more, or a list or dictionary that holds one), or it raises
    [JSONDecodeError]. *)
Inductive Decoded : Type :=
| Value (v : json)
| Beyond (kind : Kind)
| Invalid.

(** [json.loads(s)]: one value, with nothing but white space after it. *)
Definition loads (s : string) : Decoded :=
  match parse_value (S (String.length s)) s with
  | Found v rest =>
      match skip_ws rest with
      | EmptyString => Value v
      | String _ _ => Invalid
      end
  | Outside rest =>
      match skip_ws rest with
      | EmptyString => Beyond (kind_of s)
      | String _ _ => Invalid
      end
  | Bad => Invalid
  end.

(** *** Values a Python program can hold

    The keys of a [dict] are distinct. *)

Fixpoint distinct (keys : list string) : bool :=
  match keys with
  | [] => true
  | k :: rest => negb (existsb (String.eqb k) rest) && distinct rest
  end.

Fixpoint well_formed (v : json) : bool :=
  match v with
  | JArr items => forallb well_formed items
  | JObj members =>
      distinct (map fst members)
      && forallb (fun kv => well_formed (snd kv)) members
  | _ => true
  end.

(** *** Notions for the proofs *)

(** A text that the decoder skips. *)
Definition white (w : string) : Prop := forall s, skip_ws (w ++ s) = skip_ws s.

(** Whether a text continues a number that ends before it. *)
Definition continues_number (s : string) : bool :=
  match s with
  | String c _ => Ascii.eqb c "." || Ascii.eqb c "e" || Ascii.eqb c "E"
  | EmptyString => false
  end.

(** The text after a number does not continue it. *)
Definition ends_number (s : string) : bool :=
  match s with
  | EmptyString => true
  | String c _ =>
      match digit_of_char c with
      | Some _ => false
      | None => negb (continues_number s)
      end
  end.

(** A run of digits that is not empty and does not start with a zero. *)
Definition proper (d : Decimal.uint) : Prop :=
  d <> Decimal.Nil /\ forall d', d <> Decimal.D0 d'.

(** The first character of a number: a digit or the sign. *)
Definition starts_number (c : ascii) : bool :=
  match digit_of_char c with
  | Some _ => true
  | None => Ascii.eqb c "-"
  end.

(** What follows an item of a list, and what follows a member of a
    dictionary. *)
Definition items_after (fuel : nat) (first : option json) (s1 : string)
  : Scan (list json) :=
  match expect "," (skip_ws s1) with
  | Some s2 =>
      match first, parse_items fuel s2 with
      | Some v, Found items s3 => Found (v :: items) s3
      | _, r => outside r
      end
  | None =>
      match expect "]" (skip_ws s1) with
      | Some s2 =>
          match first with
          | Some v => Found [v] s2
          | None => Outside s2
          end
      | None => Bad
      end
  end.

Definition members_after (fuel : nat) (first : option (string * option json))
    (s4 : string) : Scan (list (string * option json)) :=
  match expect "," (skip_ws s4) with
  | Some s5 =>
      match first, parse_members fuel s5 with
      | Some kv, Found pairs s6 => Found (kv :: pairs) s6
      | _, r => outside r
      end
  | None =>
      match expect "}" (skip_ws s4) with
      | Some s5 =>
          match first with
          | Some kv => Found [kv] s5
          | None => Outside s5
          end
      | None => Bad
      end
  end.

Definition member_value (fuel : nat) (key : option string) (s2 : string)
  : Scan (list (string * option json)) :=
  match expect ":" (skip_ws s2) with
  | Some s3 =>
      match parse_value fuel s3 with
      | Found v s4 =>
          members_after fuel (option_map (fun k => (k, Some v)) key) s4
      | Outside s4 =>
          members_after fuel (option_map (fun k => (k, None)) key) s4
      | Bad => Bad
      end
  | None => Bad
  end.

(** A member whose value is of the model. *)
Definition known (kv : string * json) : string * option json :=
  (fst kv, Some (snd kv)).

(** Fuel that is enough to decode the text of a value. *)
Fixpoint need (v : json) : nat :=
  match v with
  | JArr items => S (list_sum (map (fun x => S (need x)) items))
  | JObj members => S (list_sum (map (fun kv => S (need (snd kv))) members))
  | _ => 1
  end.

(** The text of one member of a dictionary printed at level [l]. *)
Definition encode_member (i : option nat) (l : nat) (kv : string * json)
  : string :=
  encode_string (fst kv) ++ ": " ++ encode i (S l) (snd kv).

(** An item printed one level below [l] decodes to itself. *)
Definition decodes (i : option nat) (l : nat) (v : json) : Prop :=
  forall fuel w rest,
    white w -> need v <= fuel -> ends_number rest = true ->
    parse_value fuel (w ++ encode i (S l) v ++ rest) = Found v rest.

End Json.


(** ** The string methods the program uses *)

Module Str.

Definition nl : string := String "010" "".

(** [str.isspace] on one character. *)
Definition is_space (c : ascii) : bool :=
  let n := nat_of_ascii c in
  (((9 <=? n) && (n <=? 13)) || ((28 <=? n) && (n <=? 32))
   || (n =? 133) || (n =? 160))%nat.

Fixpoint lstrip (s : string) : string :=
  match s with
  | String c s' => if is_space c then lstrip s' else s
  | EmptyString => ""
  end.

Fixpoint rstrip (s : string) : string :=
  match s with
  | String c s' =>
      match rstrip s' with
      | EmptyString => if is_space c then "" else String c ""
      | r => String c r
      end
  | EmptyString => ""
  end.

(** [s.strip()] *)
Definition strip (s : string) : string := rstrip (lstrip s).

(** [s.split()]: the maximal runs of characters that are not white space;
    [word] is the run being read. *)
Fixpoint split_from (word s : string) : list string :=
  match s with
  | EmptyString => if String.eqb word "" then [] else [word]
  | String c s' =>
      if is_space c then
        if String.eqb word "" then split_from "" s'
        else word :: split_from "" s'
      else split_from (word ++ String c "") s'
  end.

Definition split (s : string) : list string := split_from "" s.

Definition lower_char (c : ascii) : ascii :=
  let n := nat_of_ascii c in
  if (((65 <=? n) && (n <=? 90))
      || ((192 <=? n) && (n <=? 222) && negb (n =? 215)))%nat
  then ascii_of_nat (n + 32) else c.

(** [s.lower()] *)
Fixpoint lower (s : string) : string :=
  match s with
  | String c s' => String (lower_char c) (lower s')
  | EmptyString => ""
  end.

(** [s.startswith(p)] *)
Fixpoint startswith (s p : string) {struct p} : bool :=
  match p with
  | EmptyString => true
  | String a p' =>
      match s with
      | String b s' => Ascii.eqb a b && startswith s' p'
      | EmptyString => false
      end
  end.

End Str.

(** [print(x)] writes [x] and a newline; [print(x, end="")] writes [x]. *)
Definition line (s : string) : string := s ++ Str.nl.

(** The colour codes of [TerminalColors]. *)
Module TerminalColors.
Definition ESC : string := String "027" "".
Definition BLUE : string := ESC ++ "[94m".
Definition GREEN : string := ESC ++ "[92m".
Definition RED : string := ESC ++ "[91m".
Definition YELLOW : string := ESC ++ "[93m".
Definition GRAY : string := ESC ++ "[90m".
Definition ENDC : string := ESC ++ "[0m".
Definition BOLD : string := ESC ++ "[1m".
End TerminalColors.

(** ** Tool results *)

(** What [ToolCollection.run] returns (the class is imported from
    [computer_use_demo.tools]; the loop reads these three attributes). *)
Record ToolResult : Type := mkToolResult {
  output : option string;
  error : option string;
  base64_image : option string
}.

(** How a call of [ToolCollection.run] ends: it returns a result, or it
    raises (the call is inside the [try] of [sampling_loop]; [e] is the
    [str] of the exception). *)
Inductive ToolOutcome : Type :=
| ToolReturns (result : ToolResult)
| ToolRaises (e : string).

Definition text_block (s : string) : json :=
  JObj [("type", JStr "text"); ("text", JStr s)].

Definition image_block (data : string) : json :=
  JObj [("type", JStr "image");
        ("source", JObj [("type", JStr "base64");
                         ("media_type", JStr "image/png");
                         ("data", JStr data)])].

(** Lines 274-294 of [sampling_loop]: the pair ([is_error],
    [tool_result_content]) computed from a tool's result. *)
Definition tool_result_content (result : ToolResult) : bool * json :=
  if truthy (error result) then
    (true, JStr (text_of (error result)))
  else
    (false,
     JArr ((if truthy (output result)
            then [text_block (text_of (output result))] else [])
           ++
           (if truthy (base64_image result)
            then [image_block (text_of (base64_image result))] else []))).

(** The [tool_result] block of lines 298-303. *)
Definition tool_result_block (result : ToolResult) (tool_use_id : string)
  : json :=
  JObj [("type", JStr "tool_result");
        ("content", snd (tool_result_content result));
        ("tool_use_id", JStr tool_use_id);
        ("is_error", JBool (fst (tool_result_content result)))].

(** The user message of lines 297-305 (keys in the order of the source). *)
Definition tool_result_message (result : ToolResult) (tool_use_id : string)
  : json :=
  JObj [("content", JArr [tool_result_block result tool_use_id]);
        ("role", JStr "user")].

(** [print_tool_result]: what is printed for a tool's result. *)
Definition print_tool_result (result : ToolResult) : list string :=
  if truthy (error result) then
    [line (TerminalColors.RED ++ "[Tool Error] " ++ text_of (error result)
           ++ TerminalColors.ENDC)]
  else
    (if truthy (output result)
     then [line (TerminalColors.GRAY ++ "[Tool Output]" ++ TerminalColors.ENDC);
           line (text_of (output result))]
     else [])
    ++
    (if truthy (base64_image result)
     then [line (TerminalColors.GRAY
                 ++ "[Tool Generated Image] (Base64 data not shown)"
                 ++ TerminalColors.ENDC)]
     else []).

(** ** What the remote service sends *)

(** A content block of the response.  The loop reads [block.type], and
    then [block.text] of a text block (which may lack the attribute) or
    [block.id], [block.name] and [block.input] of a tool-use block. *)
Inductive Block : Type :=
| TextBlock (text : option string)
| ToolUseBlock (id name : string) (input : json)
| ThinkingBlock (thinking : string).

Record Delta : Type := mkDelta { content : option (list Block) }.
Record Chunk : Type := mkChunk { delta : option Delta }.

(** The request of lines 228-236. *)
Record Request : Type := mkRequest {
  max_tokens : Z;
  req_messages : list json;
  req_cache_breakpoints : list bool;
  req_model : string;
  req_system : list json;
  req_tools : list json;
  req_betas : list string;
  req_stream : bool
}.

(** One remote call: it raises, or it gives a stream that yields chunks and
    then ends or raises. *)
Inductive ApiOutcome : Type :=
| CallRaises (e : string)
| Streams (chunks : list Chunk) (failure : option string).

Definition PROMPT_CACHING_BETA_FLAG : string := "prompt-caching-2024-07-31".
Definition DEFAULT_MODEL : string := "claude-3-7-sonnet-20250219".
Definition DEFAULT_TOOL_VERSION : string := "computer_use_20250124".
Definition DEFAULT_MAX_TOKENS : Z := 16384.

(** ** The collaborators

    The client, the tool collection and the constants that the program
    imports; [World] is whatever state they have. *)
Class Collaborators : Type := {
  World : Type;
  (** [self.client.beta.messages.with_raw_response.create(...)] and the
      iteration over the stream it returns *)
  create : Request -> World -> ApiOutcome * World;
  (** [self.tool_collection.run(name=..., tool_input=...)] *)
  tool_run : string -> json -> World -> ToolOutcome * World;
  (** [self.tool_collection.to_params()] *)
  to_params : list json;
  (** [self.tool_group.beta_flag] *)
  beta_flag : option string;
  SYSTEM_PROMPT : string;
  (** the [str] of the exception that [json.load] raises for a text that
      is not JSON *)
  decode_error : string -> string;
  (** the Cache Annotator's bound and the messages it may mark *)
  max_cache_breakpoints : nat;
  eligible : json -> bool
}.

(** The files the commands read and write.  A name denotes a file, and
    two names can denote the same one ([a.json] and [./a.json]): [path]
    gives the file, and [texts] the text of each file that is there to be
    read.  [read_error] is the [str] of the exception that
    [open(name, 'r')] raises for a name with no file to read (the text the
    operating system gives, with the name in it), [write_error] the one
    that [open(name, 'w')] raises, for the names that cannot be opened for
    writing. *)
Record FileSystem : Type := mkFileSystem {
  path : string -> string;
  texts : string -> option string;
  read_error : string -> string;
  write_error : string -> option string
}.

(** The text that is read under a name, if there is a file. *)
Definition contents (fs : FileSystem) (name : string) : option string :=
  texts fs (path fs name).

(** Whether a name can be opened for writing. *)
Definition writable (fs : FileSystem) (name : string) : bool :=
  match write_error fs name with
  | None => true
  | Some _ => false
  end.

(** The file that [name] denotes gets the text; the other files keep
    theirs. *)
Definition write_file (fs : FileSystem) (name text : string) : FileSystem :=
  mkFileSystem
    (path fs)
    (fun p => if String.eqb p (path fs name) then Some text else texts fs p)
    (read_error fs) (write_error fs).

(** The fields of [TerminalInterface] that are plain data. *)
Record TerminalInterface : Type := mkTerminalInterface {
  api_key : string;
  model : string;
  tool_version : string;
  messages : list json;
  system : list (string * json)
}.

Definition set_messages (self : TerminalInterface) (ms : list json)
  : TerminalInterface :=
  mkTerminalInterface (api_key self) (model self) (tool_version self) ms
    (system self).

Section Program.

Context {C : Collaborators}.

(** [TerminalInterface.__init__] *)
Definition init (api_key model tool_version : string) : TerminalInterface :=
  mkTerminalInterface api_key model tool_version []
    [("type", JStr "text"); ("text", JStr SYSTEM_PROMPT)].

(** Everything the program changes: its own fields, the collaborators'
    state, the files, what it has printed, and the requests it has sent.
    [beyond] is set when [/load] reads a value that the model does not have
    (a float, a string with a code point of 256 or more): the program then
    holds a transcript that [self] cannot show, and from there on the
    record does not follow the transcript or the output any more. *)
Record Session : Type := mkSession {
  self : TerminalInterface;
  world : World;
  files : FileSystem;
  stdout : list string;
  sent : list Request;
  beyond : bool
}.

Definition print (out : list string) (s : Session) : Session :=
  mkSession (self s) (world s) (files s) (stdout s ++ out) (sent s) (beyond s).

Definition with_self (s : Session) (i : TerminalInterface) : Session :=
  mkSession i (world s) (files s) (stdout s) (sent s) (beyond s).

Definition with_world (s : Session) (w : World) : Session :=
  mkSession (self s) w (files s) (stdout s) (sent s) (beyond s).

Definition with_files (s : Session) (fs : FileSystem) : Session :=
  mkSession (self s) (world s) fs (stdout s) (sent s) (beyond s).

(** The model has lost track of the transcript. *)
Definition lost (s : Session) : Session :=
  mkSession (self s) (world s) (files s) (stdout s) (sent s) true.

(** *** The Cache Annotator *)

(** Modelled from the spec: the walk of the Cache Annotator, from the most
    recent message back, marking the eligible messages while the budget
    lasts. *)
Fixpoint mark_recent (budget : nat) (newest_first : list json) : list bool :=
  match newest_first with
  | [] => []
  | m :: older =>
      if eligible m then
        match budget with
        | O => false :: mark_recent O older
        | S budget' => true :: mark_recent budget' older
        end
      else false :: mark_recent budget older
  end.

(** Modelled from the spec: [_inject_prompt_caching], which the program
    imports from [computer_use_demo.loop].  Given the transcript it marks
    the boundaries of the most recent eligible messages as cache
    breakpoints, at most [max_cache_breakpoints] of them; the marks are
    message metadata, recomputed before each call (so older ones are
    evicted), and no content block is altered.  The result says, for each
    message in order, whether it is marked. *)
Definition inject_prompt_caching (messages : list json) : list bool :=
  rev (mark_recent max_cache_breakpoints (rev messages)).

(** *** One turn of [sampling_loop] *)

(** Lines 219-224 and the arguments of lines 228-236. *)
Definition build_request (self : TerminalInterface) : Request :=
  let betas :=
    ((if truthy beta_flag then [text_of beta_flag] else [])
     ++ [PROMPT_CACHING_BETA_FLAG])%list in
  let system_with_cache :=
    dict_set "cache_control" (JObj [("type", JStr "ephemeral")]) (system self) in
  mkRequest DEFAULT_MAX_TOKENS (messages self)
    (inject_prompt_caching (messages self)) (model self)
    [JObj system_with_cache] to_params betas true.

(** Lines 244-249: the blocks of one chunk are stored, the text of text
    blocks is printed as it arrives. *)
Fixpoint receive_blocks (blocks : list Block) : list string :=
  match blocks with
  | [] => []
  | TextBlock (Some t) :: rest => t :: receive_blocks rest
  | _ :: rest => receive_blocks rest
  end.

(** Lines 242-243: the blocks a chunk carries, if its delta and the delta's
    content are there and not empty. *)
Definition chunk_blocks (chunk : Chunk) : list Block :=
  match delta chunk with
  | Some d =>
      match content d with
      | Some blocks => blocks
      | None => []
      end
  | None => []
  end.

(** Lines 239-249: [response_content_blocks] once the chunks are read. *)
Definition response_content_blocks (chunks : list Chunk) : list Block :=
  flat_map chunk_blocks chunks.

(** The dictionary of lines 259-264. *)
Definition tool_use_block (id name : string) (input : json) : json :=
  JObj [("type", JStr "tool_use"); ("id", JStr id); ("name", JStr name);
        ("input", input)].

(** Lines 253-305: the blocks are processed in order.  [response_params]
    collects the blocks of the assistant message; a tool-use block runs its
    tool at once and appends the tool's result to [self.messages].  When a
    tool raises, the blocks that follow are not processed: the result is the
    [str] of the exception, and the session is what the blocks before have
    made of it. *)
Fixpoint process_blocks (blocks : list Block) (response_params : list json)
    (s : Session) : (list json + string) * Session :=
  match blocks with
  | [] => (inl response_params, s)
  | TextBlock text :: rest =>
      if truthy text
      then process_blocks rest
             (response_params ++ [text_block (text_of text)])%list s
      else process_blocks rest response_params s
  | ToolUseBlock id name input :: rest =>
      match tool_run name input (world s) with
      | (ToolReturns result, w) =>
          process_blocks rest
            (response_params ++ [tool_use_block id name input])%list
            (mkSession
               (set_messages (self s)
                  (messages (self s) ++ [tool_result_message result id])%list)
               w (files s) (stdout s ++ print_tool_result result)%list
               (sent s) (beyond s))
      | (ToolRaises e, w) => (inr e, with_world s w)
      end
  | ThinkingBlock _ :: rest => process_blocks rest response_params s
  end.

(** Line 314: whether a block of [response_params] is a tool use. *)
Definition is_tool_use (block : json) : bool :=
  match block with
  | JObj d =>
      match dict_get "type" d with
      | Some (JStr t) => String.eqb t "tool_use"
      | _ => false
      end
  | _ => false
  end.

Definition assistant_message (response_params : list json) : json :=
  JObj [("role", JStr "assistant"); ("content", JArr response_params)].

Definition api_error (e : string) : list string :=
  [line (Str.nl ++ TerminalColors.RED ++ "Error calling Claude API: " ++ e
         ++ TerminalColors.ENDC)].

(** How one turn of the [while True] loop ends. *)
Inductive TurnEnd : Type :=
| Again
| Return
| Caught (e : string).

(** The body of the [while True] loop of [sampling_loop] (lines 219-319).
    Whatever raises inside the [try] (the call, the stream, a tool) is
    caught at line 317: the error is printed and the loop returns, with the
    messages appended so far. *)
Definition sampling_turn (s : Session) : TurnEnd * Session :=
  let request := build_request (self s) in
  let (outcome, w) := create request (world s) in
  let s1 :=
    mkSession (self s) w (files s) (stdout s) (sent s ++ [request])
      (beyond s) in
  match outcome with
  | CallRaises e => (Caught e, print (api_error e) s1)
  | Streams chunks (Some e) =>
      (Caught e,
       print (receive_blocks (response_content_blocks chunks) ++ api_error e) s1)
  | Streams chunks None =>
      let blocks := response_content_blocks chunks in
      match process_blocks blocks [] (print (receive_blocks blocks) s1) with
      | (inl response_params, s2) =>
          let s3 :=
            with_self s2
              (set_messages (self s2)
                 (messages (self s2)
                  ++ [assistant_message response_params])%list) in
          if existsb is_tool_use response_params
          then (Again, s3) else (Return, s3)
      | (inr e, s2) => (Caught e, print (api_error e) s2)
      end
  end.

(** How a run of [sampling_loop] ends; [Running] is a loop that has not
    returned when the fuel runs out. *)
Inductive LoopEnd : Type :=
| Returned
| ReturnedAfter (e : string)
| Running.

(** [sampling_loop]: turns are taken until one returns. *)
Fixpoint sampling_loop (fuel : nat) (s : Session) : LoopEnd * Session :=
  match fuel with
  | O => (Running, s)
  | S fuel' =>
      match sampling_turn s with
      | (Again, s') => sampling_loop fuel' s'
      | (Return, s') => (Returned, s')
      | (Caught e, s') => (ReturnedAfter e, s')
      end
  end.

(** *** The commands *)

(** [print_banner] *)
Definition print_banner : list string :=
  let Y := TerminalColors.YELLOW in
  let E := TerminalColors.ENDC in
  [line (Str.nl ++ TerminalColors.BOLD ++ "===== Claude Terminal Interface ====="
         ++ E);
   line (TerminalColors.GRAY ++ "Commands:" ++ E);
   line ("  " ++ Y ++ "/clear" ++ E ++ " - Clear chat history");
   line ("  " ++ Y ++ "/exit" ++ E ++ " - Exit the interface");
   line ("  " ++ Y ++ "/help" ++ E ++ " - Show this help message");
   line ("  " ++ Y ++ "/save <filename>" ++ E ++ " - Save conversation to file");
   line ("  " ++ Y ++ "/load <filename>" ++ E ++ " - Load conversation from file");
   line (TerminalColors.BOLD ++ "=================================" ++ E
         ++ Str.nl)].

(** [msg[key]] for a string key: the value, or the text of the exception
    ([KeyError] on a dictionary without the key, [TypeError] on anything
    that is not a dictionary). *)
Definition subscript (msg : json) (key : string) : json + string :=
  match msg with
  | JObj d =>
      match dict_get key d with
      | Some v => inl v
      | None => inr ("'" ++ key ++ "'")
      end
  | JArr _ => inr "list indices must be integers or slices, not str"
  | JStr _ => inr "string indices must be integers, not 'str'"
  | JNum _ => inr "'int' object is not subscriptable"
  | JBool _ => inr "'bool' object is not subscriptable"
  | JNull => inr "'NoneType' object is not subscriptable"
  end.

(** [msg[key] = v] on a dictionary. *)
Definition set_item (msg : json) (key : string) (v : json) : json :=
  match msg with
  | JObj d => JObj (dict_set key v d)
  | _ => msg
  end.

(** Lines 121-127: the list that [/save] writes, or the exception raised
    while it is built.  Content that is not a string is stored as its JSON
    text. *)
Fixpoint serializable_messages (msgs : list json) : list json + string :=
  match msgs with
  | [] => inl []
  | msg :: rest =>
      match subscript msg "role" with
      | inr e => inr e
      | inl role =>
          match subscript msg "content" with
          | inr e => inr e
          | inl c =>
              let stored :=
                match c with
                | JStr _ => c
                | _ => JStr (Json.dumps c)
                end in
              match serializable_messages rest with
              | inl l => inl (JObj [("role", role); ("content", stored)] :: l)
              | inr e => inr e
              end
          end
      end
  end.

Definition save_error (e : string) : list string :=
  [line (TerminalColors.RED ++ "Error saving conversation: " ++ e
         ++ TerminalColors.ENDC)].

Definition load_error (e : string) : list string :=
  [line (TerminalColors.RED ++ "Error loading conversation: " ++ e
         ++ TerminalColors.ENDC)].

(** Lines 117-132, the body of [/save].  Opening the file for writing
    empties it; the text is written once the whole list is built. *)
Definition save (filename : string) (s : Session) : Session :=
  match write_error (files s) filename with
  | None =>
      match serializable_messages (messages (self s)) with
      | inl l =>
          print [line ("Conversation saved to " ++ filename)]
            (with_files s
               (write_file (files s) filename (Json.dumps_indent 2 (JArr l))))
      | inr e =>
          print (save_error e)
            (with_files s (write_file (files s) filename ""))
      end
  | Some e => print (save_error e) s
  end.

(** [for msg in loaded_messages]: what the loop iterates over (the items
    of a list, the keys of a dictionary, the characters of a string), or the
    [TypeError]. *)
Definition iterate (v : json) : list json + string :=
  match v with
  | JArr l => inl l
  | JObj d => inl (map (fun kv => JStr (fst kv)) d)
  | JStr t => inl (map (fun c => JStr (String c "")) (list_ascii_of_string t))
  | JNum _ => inr "'int' object is not iterable"
  | JBool _ => inr "'bool' object is not iterable"
  | JNull => inr "'NoneType' object is not iterable"
  end.

(** Lines 145-149: string content that starts with a bracket is replaced
    by the value it parses to, when it parses; [None] when that value is
    outside the model. *)
Definition parse_content (msg c : json) : option json :=
  match c with
  | JStr t =>
      if Str.startswith t "[" then
        match Json.loads t with
        | Json.Value v => Some (set_item msg "content" v)
        | Json.Invalid => Some msg
        | Json.Beyond _ => None
        end
      else Some msg
  | _ => Some msg
  end.

(** How the loop of lines 144-150 ends: at the end of the list, by an
    exception, or with a message that the model does not have. *)
Inductive Loaded : Type :=
| LoadedAll (msgs : list json)
| LoadRaised (msgs : list json) (e : string)
| LoadedBeyond.

(** Lines 144-150: the loaded messages are appended to [self.messages] one
    by one.  An exception leaves the messages appended so far. *)
Fixpoint load_messages (loaded : list json) (acc : list json) : Loaded :=
  match loaded with
  | [] => LoadedAll acc
  | msg :: rest =>
      match subscript msg "content" with
      | inr e => LoadRaised acc e
      | inl c =>
          match parse_content msg c with
          | Some msg' => load_messages rest (acc ++ [msg'])%list
          | None => LoadedBeyond
          end
      end
  end.

(** Lines 138-153, the body of [/load].  A file that holds a list with a
    value outside the model leaves a transcript that the model cannot show.
    A float is not iterable; a string outside the model is not empty and a
    dictionary outside the model has a key, so that the loop of line 144
    meets a string, which has no content to read. *)
Definition load (filename : string) (s : Session) : Session :=
  match contents (files s) filename with
  | None => print (load_error (read_error (files s) filename)) s
  | Some text =>
      match Json.loads text with
      | Json.Invalid => print (load_error (decode_error text)) s
      | Json.Beyond Json.AList => lost s
      | Json.Beyond Json.AFloat =>
          print (load_error "'float' object is not iterable")
            (with_self s (set_messages (self s) []))
      | Json.Beyond _ =>
          print (load_error "string indices must be integers, not 'str'")
            (with_self s (set_messages (self s) []))
      | Json.Value loaded_messages =>
          match iterate loaded_messages with
          | inr e =>
              print (load_error e) (with_self s (set_messages (self s) []))
          | inl items =>
              match load_messages items [] with
              | LoadedAll msgs =>
                  print [line ("Conversation loaded from " ++ filename)]
                    (with_self s (set_messages (self s) msgs))
              | LoadRaised msgs e =>
                  print (load_error e)
                    (with_self s (set_messages (self s) msgs))
              | LoadedBeyond => lost s
              end
          end
      end
  end.

(** What a call of [handle_command] does: it returns a boolean or raises. *)
Inductive CommandEnd : Type :=
| Returns (b : bool)
| Raises (e : string).

(** [handle_command] *)
Definition handle_command (command : string) (s : Session)
  : CommandEnd * Session :=
  match Str.split command with
  | [] => (Raises "list index out of range", s)
  | first :: args =>
      let cmd := Str.lower first in
      if String.eqb cmd "/exit" then
        (Returns false, print [line "Exiting..."] s)
      else if String.eqb cmd "/clear" then
        (Returns true,
         print [line "Chat history cleared."]
           (with_self s (set_messages (self s) [])))
      else if String.eqb cmd "/help" then
        (Returns true, print print_banner s)
      else if String.eqb cmd "/save" then
        match args with
        | [] =>
            (Returns true,
             print [line (TerminalColors.RED
                          ++ "Error: Please provide a filename to save to."
                          ++ TerminalColors.ENDC)] s)
        | filename :: _ => (Returns true, save filename s)
        end
      else if String.eqb cmd "/load" then
        match args with
        | [] =>
            (Returns true,
             print [line (TerminalColors.RED
                          ++ "Error: Please provide a filename to load from."
                          ++ TerminalColors.ENDC)] s)
        | filename :: _ => (Returns true, load filename s)
        end
      else
        (Returns true,
         print [line (TerminalColors.RED ++ "Unknown command: " ++ cmd
                      ++ TerminalColors.ENDC)] s)
  end.

(** *** The main loop *)

(** The message that [run] appends for a line of user input. *)
Definition user_message (user_input : string) : json :=
  JObj [("role", JStr "user"); ("content", JArr [text_block user_input])].

(** How [run] ends: by [/exit], by an exception (the end of the input
    included), or not at all while [sampling_loop] is still running. *)
Inductive RunEnd : Type :=
| Exited
| Crashed (e : string)
| Blocked.

Definition run_error (e : string) : list string :=
  [line (TerminalColors.RED ++ "Error: " ++ e ++ TerminalColors.ENDC)].

(** The [while True] loop of [run] (lines 186-208); [inputs] are the lines
    that [input()] will return, and [fuel] bounds each call of
    [sampling_loop]. *)
Fixpoint run_loop (fuel : nat) (inputs : list string) (s : Session)
  : RunEnd * Session :=
  let s0 :=
    print [TerminalColors.BLUE ++ "You:" ++ TerminalColors.ENDC ++ " "] s in
  match inputs with
  | [] =>
      (Crashed "EOF when reading a line",
       print (run_error "EOF when reading a line") s0)
  | l :: rest =>
      let user_input := Str.strip l in
      if Str.startswith user_input "/" then
        match handle_command user_input s0 with
        | (Returns false, s1) => (Exited, s1)
        | (Returns true, s1) => run_loop fuel rest s1
        | (Raises e, s1) => (Crashed e, print (run_error e) s1)
        end
      else
        let s1 :=
          with_self s0
            (set_messages (self s0)
               (messages (self s0) ++ [user_message user_input])%list) in
        let s2 :=
          print [Str.nl ++ TerminalColors.GREEN ++ "Claude:"
                 ++ TerminalColors.ENDC ++ " "] s1 in
        match sampling_loop fuel s2 with
        | (Running, s3) => (Blocked, s3)
        | (_, s3) => run_loop fuel rest (print [line Str.nl] s3)
        end
  end.

(** [run] *)
Definition run (fuel : nat) (inputs : list string) (s : Session)
  : RunEnd * Session :=
  run_loop fuel inputs (print print_banner s).

End Program.

(** ** Reading a transcript

    The notions the statements below are written with. *)

(** Whether a message has the given role. *)
Definition has_role (r : string) (m : json) : bool :=
  match field "role" m with
  | Some (JStr x) => String.eqb x r
  | _ => false
  end.

(** The tool-use blocks of a response, in order: id, name and input. *)
Fixpoint tool_uses (blocks : list Block) : list (string * string * json) :=
  match blocks with
  | [] => []
  | ToolUseBlock id name input :: rest => (id, name, input) :: tool_uses rest
  | _ :: rest => tool_uses rest
  end.

(** A response block as a dictionary, field for field. *)
Definition block_param (b : Block) : json :=
  match b with
  | TextBlock text =>
      JObj [("type", JStr "text"); ("text", JStr (text_of text))]
  | ToolUseBlock id name input =>
      JObj [("type", JStr "tool_use"); ("id", JStr id); ("name", JStr name);
            ("input", input)]
  | ThinkingBlock t => JObj [("type", JStr "thinking"); ("thinking", JStr t)]
  end.

(** An attribute that is there and not empty. *)
Definition present (o : option string) : list string :=
  match o with
  | Some t => if String.eqb t "" then [] else [t]
  | None => []
  end.

(** What a tool's result is recorded as: whether it is an error, and the
    content, which is the error text, or else the list of a text block for
    the output and an image block for the image, as far as they are there. *)
Definition recorded_result (r : ToolResult) : bool * json :=
  match present (error r) with
  | e :: _ => (true, JStr e)
  | [] =>
      (false,
       JArr (map (fun t => JObj [("type", JStr "text"); ("text", JStr t)])
               (present (output r))
             ++ map (fun d =>
                       JObj [("type", JStr "image");
                             ("source",
                              JObj [("type", JStr "base64");
                                    ("media_type", JStr "image/png");
                                    ("data", JStr d)])])
                 (present (base64_image r)))%list)
  end.

(** The user message that answers one tool use: one tool-result block with
    the id of the tool use. *)
Definition answer (ir : string * ToolResult) : json :=
  JObj [("content",
         JArr [JObj [("type", JStr "tool_result");
                     ("content", snd (recorded_result (snd ir)));
                     ("tool_use_id", JStr (fst ir));
                     ("is_error", JBool (fst (recorded_result (snd ir))))]]);
        ("role", JStr "user")].

(** What the loop prints when a turn fails, and what [/load] prints when
    it fails. *)
Definition reported (e : string) : string :=
  String "010" (String "027" "[91mError calling Claude API: ") ++ e
  ++ String "027" "[0m" ++ String "010" "".

Definition load_failure (e : string) : string :=
  String "027" "[91mError loading conversation: " ++ e
  ++ String "027" "[0m" ++ String "010" "".

(** The blocks that [sampling_loop] records: tool uses, and text blocks
    whose text is not empty. *)
Definition recorded (b : Block) : bool :=
  match b with
  | TextBlock text => truthy text
  | ToolUseBlock _ _ _ => true
  | ThinkingBlock _ => false
  end.

(** Two messages with the same role and the same content. *)
Definition same_message (m m' : json) : Prop :=
  field "role" m' = field "role" m /\ field "content" m' = field "content" m.

(** A string that starts with a bracket and is the text of a JSON value,
    of the model or not. *)
Definition reads_as_json (t : string) : bool :=
  Str.startswith t "["
  && match Json.loads t with
     | Json.Invalid => false
     | _ => true
     end.

(** A message that [/save] and [/load] carry over: a dictionary with a role
    and with content that is either a list of blocks or a string, except the
    strings that start with a bracket and are JSON text. *)
Definition portable (m : json) : bool :=
  match field "role" m, field "content" m with
  | Some r, Some (JArr blocks) =>
      Json.well_formed r && Json.well_formed (JArr blocks)
  | Some r, Some (JStr t) => Json.well_formed r && negb (reads_as_json t)
  | _, _ => false
  end.

(** The message as [/save] writes it and [/load] reads it back. *)
Definition canonical (m : json) : json :=
  match field "role" m, field "content" m with
  | Some r, Some c => JObj [("role", r); ("content", c)]
  | _, _ => m
  end.

(** The message as [/save] stores it. *)
Definition stored (m : json) : json :=
  match field "role" m, field "content" m with
  | Some r, Some c =>
      JObj [("role", r);
            ("content", match c with
                        | JStr _ => c
                        | _ => JStr (Json.dumps c)
                        end)]
  | _, _ => m
  end.

Section Dispatch.

Context {C : Collaborators}.

(** What running the tools of a turn comes to: the id of each tool use
    whose tool returned, with the result; the exception, if a tool raised;
    and the world after the last tool that ran. *)
Record Dispatched : Type := mkDispatched {
  answered : list (string * ToolResult);
  raised : option string;
  world_after : World
}.

(** The tools of a turn run one after the other, each in the world the
    previous one left, until one raises: the tools after it do not run. *)
Fixpoint dispatch (uses : list (string * string * json)) (w : World)
  : Dispatched :=
  match uses with
  | [] => mkDispatched [] None w
  | (id, name, input) :: rest =>
      match tool_run name input w with
      | (ToolReturns result, w1) =>
          let d := dispatch rest w1 in
          mkDispatched ((id, result) :: answered d) (raised d) (world_after d)
      | (ToolRaises e, w1) => mkDispatched [] (Some e) w1
      end
  end.

(** The session in which [run] calls [sampling_loop] for a line of input
    that is not a command (lines 188-203). *)
Definition prompted (s : Session) (l : string) : Session :=
  let s0 :=
    print [TerminalColors.BLUE ++ "You:" ++ TerminalColors.ENDC ++ " "] s in
  print [Str.nl ++ TerminalColors.GREEN ++ "Claude:" ++ TerminalColors.ENDC
         ++ " "]
    (with_self s0
       (set_messages (self s0)
          (messages (self s0) ++ [user_message (Str.strip l)])%list)).

(** The session that a turn leaves when its stream was read to the end,
    the remote service having left the world [w]: the tools have run, and
    the assistant message is appended if none of them raised, the error
    printed if one did. *)
Definition completed (s : Session) (w : World) (chunks : list Chunk)
  : Session :=
  let blocks := response_content_blocks chunks in
  let run := dispatch (tool_uses blocks) w in
  mkSession
    (set_messages (self s)
       (messages (self s)
        ++ map answer (answered run)
        ++ match raised run with
           | None =>
               [JObj [("role", JStr "assistant");
                      ("content",
                       JArr (map block_param (filter recorded blocks)))]]
           | Some _ => []
           end)%list)
    (world_after run) (files s)
    (stdout s ++ receive_blocks blocks
     ++ flat_map (fun ir => print_tool_result (snd ir)) (answered run)
     ++ match raised run with
        | None => []
        | Some e => [reported e]
        end)%list
    (sent s ++ [build_request (self s)])%list
    (beyond s).

(** A request whose system block is marked as cacheable and whose messages
    carry no more breakpoints than allowed. *)
Definition cache_annotated (r : Request) : Prop :=
  (exists block,
      req_system r = [JObj block] /\
      dict_get "cache_control" block = Some (JObj [("type", JStr "ephemeral")]))
  /\ count_occ bool_dec (req_cache_breakpoints r) true <= max_cache_breakpoints
  /\ length (req_cache_breakpoints r) = length (req_messages r).

(** *** The loop as the specification words it

    After a turn with tool uses the transcript has grown by one assistant
    message followed by one user message that holds one tool result per tool
    use, in the order of the tool uses. *)
Definition batched_turn (before after : list json)
    (uses : list (string * string * json)) : Prop :=
  exists assistant user results,
    after = (before ++ [assistant; user])%list /\
    has_role "assistant" assistant = true /\
    has_role "user" user = true /\
    field "content" user = Some (JArr results) /\
    Forall2 (fun use result =>
               field "type" result = Some (JStr "tool_result") /\
               field "tool_use_id" result = Some (JStr (fst (fst use))))
            uses results.

(** Among the messages that a turn appends is an assistant message that
    holds every block of the response. *)
Definition verbatim_turn (before after : list json) (blocks : list Block)
  : Prop :=
  exists appended,
    after = (before ++ appended)%list /\
    In (JObj [("role", JStr "assistant");
              ("content", JArr (map block_param blocks))]) appended.

(** The session after [n] turns that each ended with tool uses, if the
    first [n] turns from [s] do. *)
Fixpoint after_turns (n : nat) (s : Session) : option Session :=
  match n with
  | O => Some s
  | S n' =>
      match sampling_turn s with
      | (Again, s') => after_turns n' s'
      | _ => None
      end
  end.

End Dispatch.

(** ** A scripted session

    Collaborators for the examples: the remote service answers from a
    script, one outcome per call, and refuses the call when the script is
    over; the tool [bash] lists two files, the tool [computer] fails after it
    has produced output and a screenshot, and any other name is unknown. *)
Definition scripted_run (name : string) (input : json) : ToolResult :=
  if String.eqb name "bash" then
    mkToolResult (Some ("a.txt" ++ Str.nl ++ "b.txt")) None None
  else if String.eqb name "computer" then
    mkToolResult (Some "partial") (Some "permission denied") (Some "aW1n")
  else mkToolResult None (Some ("Tool " ++ name ++ " is invalid")) None.

(** The tool [str_replace_editor] raises: it is called with an argument it
    does not take. *)
Definition scripted_tool (name : string) (input : json) : ToolOutcome :=
  if String.eqb name "str_replace_editor" then
    ToolRaises "EditTool.__call__() got an unexpected keyword argument 'file'"
  else ToolReturns (scripted_run name input).

Definition scripted : Collaborators := {|
  World := list ApiOutcome;
  create := fun _ script =>
    match script with
    | outcome :: rest => (outcome, rest)
    | [] => (CallRaises "Connection error.", [])
    end;
  tool_run := fun name input script => (scripted_tool name input, script);
  to_params := [];
  beta_flag := Some "computer-use-2025-01-24";
  SYSTEM_PROMPT := "You are using a virtual machine.";
  decode_error := fun _ => "Expecting value: line 1 column 1 (char 0)";
  max_cache_breakpoints := 2;
  eligible := has_role "user"
|}.

Definition no_files : FileSystem :=
  mkFileSystem (fun name => name) (fun _ => None)
    (fun name => "[Errno 2] No such file or directory: '" ++ name ++ "'")
    (fun _ => None).

(** A session of the scripted collaborators with the given transcript. *)
Definition scripted_session (script : list ApiOutcome) (msgs : list json)
  : @Session scripted :=
  @mkSession scripted
    (set_messages (@init scripted "key" DEFAULT_MODEL DEFAULT_TOOL_VERSION) msgs)
    script no_files [] [] false.

Definition one_chunk (blocks : list Block) : Chunk :=
  mkChunk (Some (mkDelta (Some blocks))).

Definition list_files : Block :=
  ToolUseBlock "toolu_01" "bash" (JObj [("command", JStr "ls")]).

Definition take_screenshot : Block :=
  ToolUseBlock "toolu_02" "computer" (JObj [("action", JStr "screenshot")]).

(** The user asks for the files; the response has some text and two tool
    uses. *)
Definition two_tools : list Block :=
  [TextBlock (Some "Listing. "); list_files; take_screenshot].

Definition two_tools_session : @Session scripted :=
  scripted_session [Streams [one_chunk two_tools] None]
    [user_message "list files"].

(** The same with one tool use. *)
Definition one_tool_session : @Session scripted :=
  scripted_session [Streams [one_chunk [list_files]] None]
    [user_message "list files"].

(** A response with an empty text block, a thinking block and a text. *)
Definition thoughtful : list Block :=
  [TextBlock (Some ""); ThinkingBlock "The user greets me."; TextBlock (Some "Hello!")].

Definition thoughtful_session : @Session scripted :=
  scripted_session [Streams [one_chunk thoughtful] None] [user_message "hi"].

(** A response without tool use, and one without any block. *)
Definition plain_session : @Session scripted :=
  scripted_session
    [Streams [one_chunk [TextBlock (Some "Hel")]; one_chunk [TextBlock (Some "lo")]]
       None]
    [user_message "hi"].

Definition silent_session : @Session scripted :=
  scripted_session [Streams [mkChunk None] None] [user_message "hi"].

(** The stream breaks after one fragment of text. *)
Definition broken_stream : list Chunk := [one_chunk [TextBlock (Some "Hel")]].

Definition broken_session : @Session scripted :=
  @prompted scripted
    (scripted_session [Streams broken_stream (Some "Connection reset")] [])
    "hello".

(** Transcripts for [/save] and [/load]: one with a list and a plain string
    as content, one whose content is a string that reads as JSON. *)
Definition mixed_session : @Session scripted :=
  scripted_session []
    [user_message "hi";
     JObj [("content", JStr "Hello, [user]!"); ("role", JStr "assistant")]].

Definition bracket_session : @Session scripted :=
  scripted_session [] [JObj [("role", JStr "user"); ("content", JStr "[]")]].

Definition empty_session : @Session scripted := scripted_session [] [].

(** A tool result with an error beside its output and image. *)
Definition denied : ToolResult :=
  mkToolResult (Some "partial") (Some "permission denied") (Some "aW1n").

(** A tool result with output and an image, and no error. *)
Definition shot : ToolResult :=
  mkToolResult (Some "done") None (Some "aW1n").

(** ** More notions for the statements *)

(** The command word of a command line: its first word, in lower case
    (lines 101-102). *)
Definition command_word (command : string) : option string :=
  match Str.split command with
  | [] => None
  | first :: _ => Some (Str.lower first)
  end.

(** The file name of a command line: its second word (lines 117 and 138). *)
Definition command_file (command : string) : option string :=
  match Str.split command with
  | _ :: filename :: _ => Some filename
  | _ => None
  end.

(** A message with content to read (line 145). *)
Definition has_content (m : json) : bool :=
  match field "content" m with
  | Some _ => true
  | None => false
  end.

(** A message whose content [/load] keeps as it is: anything but a string
    that starts with a bracket and reads as JSON. *)
Definition kept_as_is (m : json) : bool :=
  match field "content" m with
  | Some (JStr t) => negb (reads_as_json t)
  | Some _ => true
  | None => false
  end.

(** A message from which [/save] can read a role and content. *)
Definition has_role_and_content (m : json) : bool :=
  match field "role" m, field "content" m with
  | Some _, Some _ => true
  | _, _ => false
  end.

(** A message that [/save] stores as text that [/load] reads: its role and
    content are there and well formed, and the content is not a string that
    starts with a bracket. *)
Definition storable (m : json) : bool :=
  match field "role" m, field "content" m with
  | Some r, Some (JStr t) => Json.well_formed r && negb (Str.startswith t "[")
  | Some r, Some c => Json.well_formed r && Json.well_formed c
  | _, _ => false
  end.

(** What a storable message comes back as: its role, and its content if
    that is a string or a list, the JSON text of its content otherwise. *)
Definition reloaded (m : json) : json :=
  match field "role" m, field "content" m with
  | Some r, Some c =>
      JObj [("role", r);
            ("content", match c with
                        | JStr _ | JArr _ => c
                        | _ => JStr (Json.dumps c)
                        end)]
  | _, _ => m
  end.

(** The text of the text blocks of a list of blocks, joined. *)
Fixpoint params_text (params : list json) : string :=
  match params with
  | [] => ""
  | p :: rest =>
      match field "type" p, field "text" p with
      | Some (JStr "text"), Some (JStr t) => t ++ params_text rest
      | _, _ => params_text rest
      end
  end.

(** What has been written, joined. *)
Definition written (out : list string) : string :=
  fold_right String.append "" out.

(** The prompt that [run] prints before it reads a line. *)
Definition you : string :=
  TerminalColors.BLUE ++ "You:" ++ TerminalColors.ENDC ++ " ".

Section MoreNotions.

Context {C : Collaborators}.

(** What a turn leaves alone, and what it adds. *)
Definition extends (s s' : Session) : Prop :=
  (exists appended,
      messages (self s') = (messages (self s) ++ appended)%list
      /\ Forall (fun m => has_role "user" m = true
                          \/ has_role "assistant" m = true) appended)
  /\ api_key (self s') = api_key (self s)
  /\ model (self s') = model (self s)
  /\ tool_version (self s') = tool_version (self s)
  /\ system (self s') = system (self s)
  /\ files s' = files s
  /\ exists out, stdout s' = (stdout s ++ out)%list.

(** A request as [sampling_loop] sends them from a session with the given
    interface. *)
Definition well_formed_request (self0 : TerminalInterface) (r : Request)
  : Prop :=
  req_stream r = true
  /\ max_tokens r = DEFAULT_MAX_TOKENS
  /\ req_model r = model self0
  /\ req_tools r = to_params
  /\ (exists flags,
         req_betas r = (flags ++ [PROMPT_CACHING_BETA_FLAG])%list
         /\ length flags <= 1)
  /\ (exists more, req_messages r = (messages self0 ++ more)%list)
  /\ exists block,
       req_system r = [JObj block]
       /\ forall k, String.eqb k "cache_control" = false ->
                    dict_get k block = dict_get k (system self0).

End MoreNotions.

(** Collaborators whose every response asks for a tool, and whose tools
    always return. *)
Definition insistent : Collaborators := {|
  World := unit;
  create := fun _ w => (Streams [one_chunk [list_files]] None, w);
  tool_run := fun name input w => (ToolReturns (scripted_run name input), w);
  to_params := [];
  beta_flag := None;
  SYSTEM_PROMPT := "";
  decode_error := fun _ => "Expecting value: line 1 column 1 (char 0)";
  max_cache_breakpoints := 2;
  eligible := has_role "user"
|}.

Definition insistent_session : @Session insistent :=
  @mkSession insistent
    (@init insistent "key" DEFAULT_MODEL DEFAULT_TOOL_VERSION)
    tt no_files [] [] false.

(** Sessions for the examples of the commands. *)
Definition headless : json := JObj [("content", JStr "no role")].

Definition headless_session : @Session scripted :=
  scripted_session [] [user_message "hi"; headless].

Definition with_file (name text : string) (s : @Session scripted)
  : @Session scripted :=
  @mkSession scripted (self s) (world s) (write_file (files s) name text)
    (stdout s) (sent s) (beyond s).

(** A transcript whose second message has a dictionary as content. *)
Definition dict_session : @Session scripted :=
  scripted_session []
    [user_message "hi";
     JObj [("role", JStr "assistant");
           ("content", JObj [("type", JStr "text"); ("text", JStr "yo")])]].

(** A file with three messages, the second without content. *)
Definition roleless : json := JObj [("role", JStr "user")].

Definition damaged_text : string :=
  Json.dumps_indent 2 (JArr [user_message "hi"; roleless; user_message "later"]).

(** The stream breaks after it has delivered a tool use. *)
Definition broken_tool_session : @Session scripted :=
  scripted_session
    [Streams [one_chunk [list_files]] (Some "Connection reset")]
    [user_message "list files"].

(** The first call is refused. *)
Definition refused_session : @Session scripted :=
  scripted_session [CallRaises "Connection error."] [].


(** The response asks for two tools, and the second one raises. *)
Definition edit_file : Block :=
  ToolUseBlock "toolu_03" "str_replace_editor" (JObj [("file", JStr "a.txt")]).

Definition crashing : list Block := [list_files; edit_file].

Definition crashing_session : @Session scripted :=
  scripted_session [Streams [one_chunk crashing] None] [user_message "fix it"].

(** A transcript with a string that starts with a bracket and is not JSON. *)
Definition noted_session : @Session scripted :=
  scripted_session []
    [user_message "hi";
     JObj [("content", JStr "[Note] see above"); ("role", JStr "assistant")]].

(** Two names of one file. *)
Definition linked_files : FileSystem :=
  mkFileSystem
    (fun name => if String.eqb name "./a.json" then "a.json" else name)
    (fun p => if String.eqb p "a.json" then Some "[]"
              else if String.eqb p "b.json" then Some "{}" else None)
    (fun name => "[Errno 2] No such file or directory: '" ++ name ++ "'")
    (fun _ => None).

Definition linked_session : @Session scripted :=
  @mkSession scripted (self mixed_session) (world mixed_session) linked_files
    [] [] false.

(** The turn as the specification words it for a stream that was read to
    its end: the transcript has grown, and by exactly one assistant
    message. *)
Definition appends_one_assistant (before after : list json) : Prop :=
  exists appended,
    after = (before ++ appended)%list
    /\ length (filter (has_role "assistant") appended) = 1.
(** * Properties

    ** JSON text *)

Module JsonFacts.
Import Json.

Lemma append_assoc (a b c : string) : (a ++ b) ++ c = a ++ (b ++ c).
Proof. induction a as [|x a IH]; simpl; [reflexivity | now rewrite IH]. Qed.

Lemma append_cons c (a b : string) : String c a ++ b = String c (a ++ b).
Proof. reflexivity. Qed.

Lemma append_nil_r (a : string) : a ++ "" = a.
Proof. induction a as [|x a IH]; simpl; [reflexivity | now rewrite IH]. Qed.

Lemma length_append (a b : string) :
  String.length (a ++ b) = String.length a + String.length b.
Proof. induction a as [|x a IH]; simpl; [reflexivity | now rewrite IH]. Qed.

(** *** White space *)


Lemma white_nil : white "".
Proof. intro s; reflexivity. Qed.

Lemma white_cons c w : is_ws c = true -> white w -> white (String c w).
Proof. intros Hc Hw s; simpl; rewrite Hc; apply Hw. Qed.

Lemma white_app w1 w2 : white w1 -> white w2 -> white (w1 ++ w2).
Proof. intros H1 H2 s; rewrite append_assoc, H1; apply H2. Qed.

Lemma white_spaces n : white (spaces n).
Proof. induction n; [apply white_nil | now apply white_cons]. Qed.

Lemma white_newline_indent i l : white (newline_indent i l).
Proof.
  destruct i; simpl; [|apply white_nil].
  apply white_cons; [reflexivity | apply white_spaces].
Qed.

Lemma expect_head c c' s :
  expect c (String c' s) = if Ascii.eqb c' c then Some s else None.
Proof. reflexivity. Qed.

Ltac expect_step := rewrite expect_head; simpl Ascii.eqb; cbv match.

Lemma skip_ws_head c s : is_ws c = false -> skip_ws (String c s) = String c s.
Proof. intros H; simpl; now rewrite H. Qed.

(** *** String literals *)

Lemma scan_escape_char c tail :
  scan_string (escape_char c ++ tail) = prepend c (scan_string tail).
Proof.
  destruct c as [[] [] [] [] [] [] [] []]; reflexivity.
Qed.

Lemma scan_string_escape s rest :
  scan_string (escape s ++ String quote rest) = Found s rest.
Proof.
  induction s as [|c s IH]; [reflexivity|].
  simpl escape. rewrite append_assoc, scan_escape_char, IH. reflexivity.
Qed.

Lemma scan_encode_string s rest :
  exists t, encode_string s ++ rest = String quote t /\
            scan_string t = Found s rest.
Proof.
  exists (escape s ++ String quote rest); split.
  - unfold encode_string; simpl. now rewrite append_assoc.
  - apply scan_string_escape.
Qed.

(** A key and the colon after it. *)
Lemma scan_key_colon k r :
  exists t, encode_string k ++ ": " ++ r = String quote t /\
            scan_string t = Found k (String ":" (" " ++ r)).
Proof. apply scan_encode_string. Qed.

(** *** Numbers *)


Lemma ends_number_continues rest :
  ends_number rest = true -> continues_number rest = false.
Proof.
  destruct rest as [|c r]; [reflexivity|]; unfold ends_number.
  destruct (digit_of_char c); [discriminate|].
  now destruct (continues_number (String c r)).
Qed.

(** After an integer that is followed by neither a point nor an exponent
    mark there is no fraction and no exponent. *)
Lemma ends_number_integer rest :
  ends_number rest = true -> scan_float_part rest = None.
Proof.
  intros H. apply ends_number_continues in H.
  destruct rest as [|c r]; [reflexivity|].
  unfold continues_number in H.
  apply orb_false_elim in H as [H HE]. apply orb_false_elim in H as [Hp He].
  unfold scan_float_part, scan_fraction, scan_exponent.
  destruct r as [|c' r']; now rewrite ?Hp, He, HE.
Qed.

Lemma scan_digits_uint d rest :
  ends_number rest = true ->
  scan_digits (NilEmpty.string_of_uint d ++ rest) = (d, rest).
Proof.
  intros H; induction d; simpl; try (rewrite IHd; reflexivity).
  destruct rest as [|c r]; [reflexivity|].
  simpl in *. now destruct (digit_of_char c).
Qed.

Lemma to_uint_no_leading_zero p d : Pos.to_uint p <> Decimal.D0 d.
Proof.
  intros E.
  assert (Hn : Pos.to_uint p = Decimal.unorm (Pos.to_uint p)).
  { rewrite <- DecimalPos.Unsigned.to_of, DecimalPos.Unsigned.of_to. reflexivity. }
  assert (Hz : Decimal.nzhead (Pos.to_uint p) <> Decimal.Nil).
  { intros Hnil. apply unorm_0 in Hnil.
    apply (DecimalPos.Unsigned.to_uint_nonzero p). congruence. }
  rewrite (unorm_nzhead _ Hz) in Hn.
  apply (nzhead_nonzero (Pos.to_uint p) d). congruence.
Qed.


Lemma proper_to_uint p : proper (Pos.to_uint p).
Proof.
  split; [apply DecimalPos.Unsigned.to_uint_nonnil | intro; apply to_uint_no_leading_zero].
Qed.

Lemma scan_nat_proper d rest :
  proper d -> ends_number rest = true ->
  scan_nat (NilEmpty.string_of_uint d ++ rest) = Some (d, rest).
Proof.
  intros [Hnil Hz] H.
  destruct d; try (exfalso; first [now apply Hnil | now eapply Hz]);
    simpl NilEmpty.string_of_uint; simpl append; unfold scan_nat;
    simpl Ascii.eqb; cbv iota;
    match goal with
    | |- context [scan_digits (String ?c (NilEmpty.string_of_uint ?u ++ rest))] =>
        simpl scan_digits; rewrite (scan_digits_uint u rest H); reflexivity
    end.
Qed.

Lemma scan_unsigned_proper (negative : bool) d rest :
  proper d -> ends_number rest = true ->
  scan_unsigned negative (NilEmpty.string_of_uint d ++ rest)
  = Found (JNum (Z.of_int (if negative then Decimal.Neg d else Decimal.Pos d)))
      rest.
Proof.
  intros Hd H. unfold scan_unsigned.
  now rewrite (scan_nat_proper d rest Hd H), (ends_number_integer rest H).
Qed.

(** A text that starts with a digit, or with the sign and a digit, is not
    one of the constants. *)
Lemma scan_literal_digit c t :
  digit_of_char c <> None ->
  scan_literal (String c t) = scan_unsigned false (String c t)
  /\ scan_literal (String "-" (String c t)) = scan_unsigned true (String c t).
Proof.
  destruct c as [[] [] [] [] [] [] [] []]; cbv [digit_of_char nat_of_ascii];
    simpl; intros H; try (exfalso; now apply H); split; reflexivity.
Qed.

Lemma proper_head d :
  proper d ->
  exists c t, NilEmpty.string_of_uint d = String c t /\ digit_of_char c <> None.
Proof.
  intros [Hnil _].
  destruct d; try contradiction; simpl; eexists; eexists;
    (split; [reflexivity | discriminate]).
Qed.

Lemma scan_literal_proper (negative : bool) d rest :
  proper d -> ends_number rest = true ->
  scan_literal ((if negative then "-" else "")
                ++ NilEmpty.string_of_uint d ++ rest)
  = Found (JNum (Z.of_int (if negative then Decimal.Neg d else Decimal.Pos d)))
      rest.
Proof.
  intros Hd H.
  pose proof (scan_unsigned_proper negative d rest Hd H) as Hs.
  destruct (proper_head d Hd) as (c & t & E & Hc).
  rewrite E in *. rewrite append_cons in *.
  destruct (scan_literal_digit c (t ++ rest) Hc) as [Hpos Hneg].
  destruct negative; simpl append; [now rewrite Hneg | now rewrite Hpos].
Qed.

Lemma scan_literal_int n rest :
  ends_number rest = true ->
  scan_literal (encode_int n ++ rest) = Found (JNum n) rest.
Proof.
  intros H. rewrite <- (DecimalZ.of_to n) at 2.
  unfold encode_int. destruct n as [|p|p]; simpl Z.to_int.
  - simpl. unfold scan_literal; simpl strip_prefix; cbv iota.
    unfold scan_number, scan_unsigned; simpl.
    now rewrite (ends_number_integer rest H).
  - apply (scan_literal_proper false); [apply proper_to_uint | exact H].
  - apply (scan_literal_proper true); [apply proper_to_uint | exact H].
Qed.


Lemma encode_int_head n :
  exists c t, encode_int n = String c t /\ starts_number c = true.
Proof.
  unfold encode_int. destruct n as [|p|p]; simpl Z.to_int.
  - now exists "0"%char, "".
  - destruct (proper_to_uint p) as [Hnil _].
    simpl. destruct (Pos.to_uint p); try contradiction; simpl; eauto.
  - simpl. now exists "-"%char, (NilEmpty.string_of_uint (Pos.to_uint p)).
Qed.

Lemma starts_number_dispatch c :
  starts_number c = true ->
  is_ws c = false /\ Ascii.eqb c "[" = false /\ Ascii.eqb c "{" = false
  /\ Ascii.eqb c quote = false /\ Ascii.eqb c "]" = false
  /\ Ascii.eqb c "}" = false.
Proof.
  destruct c as [[] [] [] [] [] [] [] []]; cbv; intros; try discriminate;
    repeat split.
Qed.

(** *** Values *)

Lemma json_induction (P : json -> Prop) :
  P JNull -> (forall b, P (JBool b)) -> (forall n, P (JNum n)) ->
  (forall s, P (JStr s)) ->
  (forall items, Forall P items -> P (JArr items)) ->
  (forall members, Forall (fun kv => P (snd kv)) members -> P (JObj members)) ->
  forall v, P v.
Proof.
  intros Hnull Hbool Hnum Hstr Harr Hobj.
  fix IH 1; intros [ | b | n | s | items | members].
  - exact Hnull.
  - apply Hbool.
  - apply Hnum.
  - apply Hstr.
  - apply Harr. induction items as [|x xs IHxs]; constructor; [apply IH | exact IHxs].
  - apply Hobj. induction members as [|[k x] xs IHxs]; constructor;
      [apply IH | exact IHxs].
Qed.


Lemma parse_value_S fuel s :
  parse_value (S fuel) s =
  match skip_ws s with
  | EmptyString => Bad
  | String c s1 =>
      if Ascii.eqb c "[" then
        match expect "]" (skip_ws s1) with
        | Some s2 => Found (JArr []) s2
        | None =>
            match parse_items fuel s1 with
            | Found items s2 => Found (JArr items) s2
            | Outside s2 => Outside s2
            | Bad => Bad
            end
        end
      else if Ascii.eqb c "{" then
        match expect "}" (skip_ws s1) with
        | Some s2 => Found (JObj []) s2
        | None =>
            match parse_members fuel s1 with
            | Found pairs s2 =>
                if stays_outside pairs then Outside s2
                else Found (JObj (dict_of_pairs (map inside pairs))) s2
            | Outside s2 => Outside s2
            | Bad => Bad
            end
        end
      else if Ascii.eqb c quote then
        match scan_string s1 with
        | Found str s2 => Found (JStr str) s2
        | Outside s2 => Outside s2
        | Bad => Bad
        end
      else scan_literal (String c s1)
  end.
Proof. reflexivity. Qed.

Lemma parse_items_S fuel s :
  parse_items (S fuel) s =
  match parse_value fuel s with
  | Found v s1 => items_after fuel (Some v) s1
  | Outside s1 => items_after fuel None s1
  | Bad => Bad
  end.
Proof. reflexivity. Qed.

Lemma parse_members_S fuel s :
  parse_members (S fuel) s =
  match expect quote (skip_ws s) with
  | Some s1 =>
      match scan_string s1 with
      | Found key s2 => member_value fuel (Some key) s2
      | Outside s2 => member_value fuel None s2
      | Bad => Bad
      end
  | None => Bad
  end.
Proof. reflexivity. Qed.

(** The text of a value starts with a character that is neither white
    space nor a closing bracket. *)
Lemma encode_head i l v rest :
  exists c t, encode i l v ++ rest = String c t
              /\ is_ws c = false /\ Ascii.eqb c "]" = false.
Proof.
  destruct v as [ | [] | n | s | [|x xs] | [|kv d]];
    try (simpl; eexists; eexists; split; [reflexivity | split; reflexivity]).
  destruct (encode_int_head n) as (c & t & E & Hc).
  apply starts_number_dispatch in Hc.
  exists c, (t ++ rest). simpl encode. rewrite E. simpl. tauto.
Qed.

Lemma ends_number_close i l c rest :
  c = "]"%char \/ c = "}"%char ->
  ends_number (newline_indent i l ++ String c rest) = true.
Proof. intros [-> | ->]; destruct i; reflexivity. Qed.

(** The separator between two items: a comma, then white space. *)
Lemma separator_shape i l :
  exists w, item_separator i ++ newline_indent i l = String "," w /\ white w.
Proof.
  destruct i as [k|]; simpl.
  - eexists; split; [reflexivity|].
    apply (white_newline_indent (Some k) l).
  - exists " "; split; [reflexivity|].
    apply white_cons; [reflexivity | apply white_nil].
Qed.

Section Decode.

Variables (i : option nat) (l : nat).


Let sep := item_separator i ++ newline_indent i (S l).

Lemma parse_items_encode xs : forall x fuel w rest,
  Forall (decodes i l) (x :: xs) -> white w ->
  list_sum (map (fun y => S (need y)) (x :: xs)) <= fuel ->
  parse_items fuel
    (w ++ String.concat sep (map (encode i (S l)) (x :: xs))
       ++ newline_indent i l ++ String "]" rest)
  = Found (x :: xs) rest.
Proof.
  induction xs as [|y ys IH]; intros x fuel w rest HF Hw Hfuel;
    inversion HF as [|? ? Hx HF']; subst;
    destruct fuel as [|fuel]; try (simpl in Hfuel; lia);
    rewrite parse_items_S.
  - simpl map; simpl String.concat.
    rewrite Hx; [| exact Hw | simpl in Hfuel; lia
                 | apply ends_number_close; now left].
    unfold items_after. rewrite !(white_newline_indent i l).
    reflexivity.
  - destruct (separator_shape i (S l)) as (w' & Hsep & Hw').
    change (String.concat sep (map (encode i (S l)) (x :: y :: ys)))
      with (encode i (S l) x ++ sep
            ++ String.concat sep (map (encode i (S l)) (y :: ys))).
    rewrite ?append_assoc. unfold sep at 1. rewrite Hsep.
    rewrite append_cons.
    rewrite Hx; [| exact Hw | simpl in Hfuel; simpl; lia | reflexivity].
    unfold items_after.
    rewrite skip_ws_head by reflexivity. expect_step.
    rewrite IH; [reflexivity | exact HF' | exact Hw' |].
    simpl in Hfuel |- *; lia.
Qed.


Lemma parse_members_encode xs : forall x fuel w rest,
  Forall (fun kv => decodes i l (snd kv)) (x :: xs) -> white w ->
  list_sum (map (fun kv => S (need (snd kv))) (x :: xs)) <= fuel ->
  parse_members fuel
    (w ++ String.concat sep (map (encode_member i l) (x :: xs))
       ++ newline_indent i l ++ String "}" rest)
  = Found (map known (x :: xs)) rest.
Proof.
  induction xs as [|y ys IH]; intros [k x] fuel w rest HF Hw Hfuel;
    inversion HF as [|? ? Hx HF']; subst; simpl snd in Hx;
    destruct fuel as [|fuel]; try (simpl in Hfuel; lia);
    rewrite parse_members_S, Hw.
  - change (String.concat sep (map (encode_member i l) [(k, x)]))
      with (encode_string k ++ ": " ++ encode i (S l) x).
    rewrite ?append_assoc.
    destruct (scan_key_colon k
      (encode i (S l) x ++ newline_indent i l ++ String "}" rest)) as (t & Et & Ht).
    rewrite Et, skip_ws_head by reflexivity.
    expect_step. rewrite Ht. unfold member_value.
    rewrite skip_ws_head by reflexivity. expect_step.
    rewrite Hx; [| apply white_cons; [reflexivity | apply white_nil]
                 | simpl in Hfuel; lia
                 | apply ends_number_close; now right].
    unfold members_after. rewrite !(white_newline_indent i l).
    reflexivity.
  - destruct (separator_shape i (S l)) as (w' & Hsep & Hw').
    change (String.concat sep (map (encode_member i l) ((k, x) :: y :: ys)))
      with (encode_member i l (k, x) ++ sep
            ++ String.concat sep (map (encode_member i l) (y :: ys))).
    change (encode_member i l (k, x))
      with (encode_string k ++ ": " ++ encode i (S l) x).
    rewrite ?append_assoc. unfold sep at 1. rewrite Hsep, (append_cons "," w').
    destruct (scan_key_colon k
      (encode i (S l) x ++ String ","
         (w' ++ String.concat sep (map (encode_member i l) (y :: ys))
             ++ newline_indent i l ++ String "}" rest))) as (t & Et & Ht).
    rewrite Et, skip_ws_head by reflexivity.
    expect_step. rewrite Ht. unfold member_value.
    rewrite skip_ws_head by reflexivity. expect_step.
    rewrite Hx; [| apply white_cons; [reflexivity | apply white_nil]
                 | simpl in Hfuel; simpl; lia | reflexivity].
    unfold members_after.
    rewrite skip_ws_head by reflexivity. expect_step.
    rewrite IH; [reflexivity | exact HF' | exact Hw' |].
    simpl in Hfuel |- *; lia.
Qed.

End Decode.

Lemma concat_head {A} (g : A -> string) sep x xs tail :
  exists r, String.concat sep (map g (x :: xs)) ++ tail = g x ++ r.
Proof.
  destruct xs as [|y ys].
  - now exists tail.
  - exists (sep ++ String.concat sep (map g (y :: ys)) ++ tail).
    change (String.concat sep (map g (x :: y :: ys)))
      with (g x ++ sep ++ String.concat sep (map g (y :: ys))).
    now rewrite !append_assoc.
Qed.

Lemma dict_set_fresh k v d :
  existsb (String.eqb k) (map fst d) = false -> dict_set k v d = (d ++ [(k, v)])%list.
Proof.
  induction d as [|[k' v'] d IH]; simpl; [reflexivity|].
  intros H. apply orb_false_elim in H as [Hk Hd].
  rewrite Hk, IH by exact Hd. reflexivity.
Qed.

Lemma dict_of_pairs_app acc d :
  distinct (map fst (acc ++ d)%list) = true ->
  fold_left (fun a kv => dict_set (fst kv) (snd kv) a) d acc = (acc ++ d)%list.
Proof.
  revert acc; induction d as [|[k v] d IH]; intros acc H; simpl.
  - now rewrite List.app_nil_r.
  - assert (Hfresh : existsb (String.eqb k) (map fst acc) = false).
    { clear IH. induction acc as [|[k' v'] acc IHacc]; [reflexivity|].
      simpl in H. apply andb_prop in H as [Hk' Hrest].
      simpl. rewrite IHacc by exact Hrest. rewrite orb_false_r.
      rewrite map_app, existsb_app in Hk'. simpl in Hk'.
      apply negb_true_iff in Hk'. apply orb_false_elim in Hk' as [_ Hk'].
      apply orb_false_elim in Hk' as [Hk' _].
      now rewrite String.eqb_sym. }
    rewrite dict_set_fresh by exact Hfresh.
    rewrite IH; rewrite <- List.app_assoc; [reflexivity | exact H].
Qed.

Lemma dict_of_pairs_distinct d :
  distinct (map fst d) = true -> dict_of_pairs d = d.
Proof. intros H. apply (dict_of_pairs_app [] d H). Qed.

Lemma known_stays_inside d : stays_outside (map known d) = false.
Proof. induction d as [|[k v] d IH]; [reflexivity | exact IH]. Qed.

Lemma inside_known d : map inside (map known d) = d.
Proof.
  induction d as [|[k v] d IH]; [reflexivity|]. simpl. now rewrite IH.
Qed.

(** Decoding the text of a value gives the value back, whatever the
    indentation, the white space before it and the text after it. *)
Theorem parse_value_encode : forall v,
  well_formed v = true ->
  forall i l fuel w rest,
    white w -> need v <= fuel -> ends_number rest = true ->
    parse_value fuel (w ++ encode i l v ++ rest) = Found v rest.
Proof.
  induction v as [ | b | n | s | items IH | members IH] using json_induction;
    intros Hwf i l fuel w rest Hw Hfuel Hrest;
    (destruct fuel as [|fuel]; [simpl in Hfuel; lia|]);
    rewrite parse_value_S, Hw.
  - reflexivity.
  - destruct b; reflexivity.
  - destruct (encode_int_head n) as (c & t & E & Hc).
    apply starts_number_dispatch in Hc as (Hc1 & Hc2 & Hc3 & Hc4 & _).
    change (encode i l (JNum n)) with (encode_int n).
    pose proof (scan_literal_int n rest Hrest) as Hscan.
    rewrite E in Hscan |- *. rewrite append_cons in Hscan |- *.
    rewrite skip_ws_head by exact Hc1.
    now rewrite Hc2, Hc3, Hc4.
  - change (encode i l (JStr s)) with (encode_string s).
    destruct (scan_encode_string s rest) as (t & Et & Ht).
    rewrite Et, skip_ws_head by reflexivity.
    simpl Ascii.eqb; cbv match. now rewrite Ht.
  - destruct items as [|x xs]; [reflexivity|].
    change (encode i l (JArr (x :: xs)))
      with ("[" ++ newline_indent i (S l)
            ++ String.concat (item_separator i ++ newline_indent i (S l))
                 (map (encode i (S l)) (x :: xs))
            ++ newline_indent i l ++ "]").
    rewrite ?append_assoc. rewrite (append_cons "[" "").
    rewrite skip_ws_head by reflexivity.
    simpl Ascii.eqb; cbv match.
    change ("" ++ ?a) with a. rewrite (append_cons "]" "" rest).
    change ("" ++ rest) with rest.
    match goal with
    | |- context [expect "]" (skip_ws ?txt)] =>
        assert (Hopen : expect "]" (skip_ws txt) = None)
    end.
    { rewrite (white_newline_indent i (S l)).
      match goal with
      | |- context [String.concat ?sep (map ?g (x :: xs)) ++ ?tail] =>
          destruct (concat_head g sep x xs tail) as (r & ->)
      end.
      destruct (encode_head i (S l) x r) as (c & t & -> & Hc & Hne).
      rewrite skip_ws_head by exact Hc. rewrite expect_head. now rewrite Hne. }
    rewrite Hopen.
    rewrite (parse_items_encode i l xs x fuel (newline_indent i (S l)) rest).
    + reflexivity.
    + change (forallb well_formed (x :: xs) = true) in Hwf.
      rewrite Forall_forall in IH |- *.
      rewrite forallb_forall in Hwf.
      intros y Hy f' w' r' Hw' Hf' Hr'.
      apply IH;
        [exact Hy | apply Hwf; exact Hy | exact Hw' | exact Hf' | exact Hr'].
    + apply white_newline_indent.
    + simpl in Hfuel. simpl. lia.
  - destruct members as [|kv d]; [reflexivity|].
    change (encode i l (JObj (kv :: d)))
      with ("{" ++ newline_indent i (S l)
            ++ String.concat (item_separator i ++ newline_indent i (S l))
                 (map (encode_member i l) (kv :: d))
            ++ newline_indent i l ++ "}").
    rewrite ?append_assoc. rewrite (append_cons "{" "").
    rewrite skip_ws_head by reflexivity.
    simpl Ascii.eqb; cbv match.
    change ("" ++ ?a) with a. rewrite (append_cons "}" "" rest).
    change ("" ++ rest) with rest.
    match goal with
    | |- context [expect "}" (skip_ws ?txt)] =>
        assert (Hopen : expect "}" (skip_ws txt) = None)
    end.
    { rewrite (white_newline_indent i (S l)).
      match goal with
      | |- context [String.concat ?sep (map ?g (kv :: d)) ++ ?tail] =>
          destruct (concat_head g sep kv d tail) as (r & ->)
      end.
      unfold encode_member, encode_string.
      rewrite !append_cons. now rewrite skip_ws_head by reflexivity. }
    rewrite Hopen.
    change (distinct (map fst (kv :: d))
            && forallb (fun kv => well_formed (snd kv)) (kv :: d) = true) in Hwf.
    apply andb_prop in Hwf as [Hkeys Hwf].
    rewrite (parse_members_encode i l d kv fuel (newline_indent i (S l)) rest).
    + now rewrite known_stays_inside, inside_known, dict_of_pairs_distinct.
    + rewrite Forall_forall in IH |- *.
      rewrite forallb_forall in Hwf.
      intros y Hy f' w' r' Hw' Hf' Hr'.
      apply IH;
        [exact Hy | apply Hwf; exact Hy | exact Hw' | exact Hf' | exact Hr'].
    + apply white_newline_indent.
    + simpl in Hfuel. simpl. lia.
Qed.

(** *** Fuel: the text of a value is at least as long as the fuel it needs *)

Lemma length_concat_ge {A} (f : A -> nat) (g : A -> string) sep xs :
  1 <= String.length sep ->
  Forall (fun x => f x <= String.length (g x)) xs ->
  list_sum (map (fun x => S (f x)) xs)
  <= S (String.length (String.concat sep (map g xs))).
Proof.
  intros Hsep HF; induction HF as [|x xs Hx HF IH]; [simpl; lia|].
  destruct xs as [|y ys].
  - simpl. lia.
  - change (String.concat sep (map g (x :: y :: ys)))
      with (g x ++ sep ++ String.concat sep (map g (y :: ys))).
    rewrite !length_append.
    change (map (fun x => S (f x)) (x :: y :: ys))
      with (S (f x) :: map (fun x => S (f x)) (y :: ys)).
    change (list_sum (?a :: ?r)) with (a + list_sum r).
    lia.
Qed.

Lemma separator_length i l :
  1 <= String.length (item_separator i ++ newline_indent i l).
Proof.
  destruct (separator_shape i l) as (w & -> & _). simpl. lia.
Qed.

Lemma need_le_length i : forall v l, need v <= String.length (encode i l v).
Proof.
  induction v as [ | b | n | s | items IH | members IH] using json_induction;
    intros l.
  - simpl; lia.
  - destruct b; simpl; lia.
  - destruct (encode_int_head n) as (c & t & E & _).
    change (encode i l (JNum n)) with (encode_int n). rewrite E. simpl; lia.
  - simpl. lia.
  - destruct items as [|x xs]; [simpl; lia|].
    change (encode i l (JArr (x :: xs)))
      with ("[" ++ newline_indent i (S l)
            ++ String.concat (item_separator i ++ newline_indent i (S l))
                 (map (encode i (S l)) (x :: xs))
            ++ newline_indent i l ++ "]").
    change (need (JArr (x :: xs)))
      with (S (list_sum (map (fun y => S (need y)) (x :: xs)))).
    rewrite !length_append.
    pose proof (length_concat_ge need (encode i (S l))
                  (item_separator i ++ newline_indent i (S l)) (x :: xs)
                  (separator_length i (S l))) as H.
    assert (HF : Forall (fun y => need y <= String.length (encode i (S l) y))
                        (x :: xs)).
    { rewrite Forall_forall in IH |- *. intros y Hy. apply IH; exact Hy. }
    specialize (H HF).
    change (String.length "[") with 1. change (String.length "]") with 1. lia.
  - destruct members as [|kv d]; [simpl; lia|].
    change (encode i l (JObj (kv :: d)))
      with ("{" ++ newline_indent i (S l)
            ++ String.concat (item_separator i ++ newline_indent i (S l))
                 (map (encode_member i l) (kv :: d))
            ++ newline_indent i l ++ "}").
    change (need (JObj (kv :: d)))
      with (S (list_sum (map (fun y => S (need (snd y))) (kv :: d)))).
    rewrite !length_append.
    pose proof (length_concat_ge (fun y => need (snd y)) (encode_member i l)
                  (item_separator i ++ newline_indent i (S l)) (kv :: d)
                  (separator_length i (S l))) as H.
    assert (HF : Forall (fun y => need (snd y)
                                  <= String.length (encode_member i l y))
                        (kv :: d)).
    { rewrite Forall_forall in IH |- *. intros y Hy.
      unfold encode_member. rewrite !length_append.
      specialize (IH y Hy (S l)). lia. }
    specialize (H HF).
    change (String.length "{") with 1. change (String.length "}") with 1. lia.
Qed.

(** [json.loads] undoes [json.dumps], with or without indentation. *)
Theorem loads_encode i l v :
  well_formed v = true -> loads (encode i l v) = Value v.
Proof.
  intros Hwf. unfold loads.
  pose proof (parse_value_encode v Hwf i l
                (S (String.length (encode i l v))) "" ""
                white_nil) as H.
  rewrite append_nil_r in H. simpl append in H.
  rewrite H; [reflexivity | | reflexivity].
  pose proof (need_le_length i v l). lia.
Qed.

Corollary loads_dumps v : well_formed v = true -> loads (dumps v) = Value v.
Proof. apply loads_encode. Qed.

Corollary loads_dumps_indent k v :
  well_formed v = true -> loads (dumps_indent k v) = Value v.
Proof. apply loads_encode. Qed.

End JsonFacts.

(** ** Dictionaries and roles *)

Lemma dict_get_set_same k v d : dict_get k (dict_set k v d) = Some v.
Proof.
  induction d as [|[k' v'] d IH]; simpl.
  - now rewrite String.eqb_refl.
  - destruct (String.eqb k k') eqn:E; simpl; rewrite E; [reflexivity | exact IH].
Qed.

Lemma dict_get_set_other k k' v d :
  String.eqb k' k = false -> dict_get k' (dict_set k v d) = dict_get k' d.
Proof.
  intros Hne; induction d as [|[k0 v0] d IH]; simpl.
  - now rewrite Hne.
  - destruct (String.eqb k k0) eqn:E; simpl.
    + apply String.eqb_eq in E; subst k0. now rewrite Hne.
    + now rewrite IH.
Qed.

(** ** What the code builds, field by field *)

Lemma truthy_present o :
  truthy o = match present o with [] => false | _ :: _ => true end.
Proof.
  destruct o as [t|]; [|reflexivity]. simpl.
  now destruct (String.eqb t "").
Qed.

Lemma present_text o t rest : present o = t :: rest -> text_of o = t /\ rest = [].
Proof.
  destruct o as [u|]; [|discriminate]. simpl.
  destruct (String.eqb u ""); [discriminate|]. intros H.
  injection H as -> <-. now split.
Qed.

Lemma tool_result_content_recorded result :
  tool_result_content result = recorded_result result.
Proof.
  unfold tool_result_content, recorded_result.
  rewrite !truthy_present.
  destruct (present (error result)) as [|e es] eqn:He.
  - destruct (present (output result)) as [|o os] eqn:Ho;
      destruct (present (base64_image result)) as [|d ds] eqn:Hd;
      try (apply present_text in Ho as [-> ->]);
      try (apply present_text in Hd as [-> ->]); reflexivity.
  - apply present_text in He as [-> _]. reflexivity.
Qed.

Lemma tool_result_message_answer result id :
  tool_result_message result id = answer (id, result).
Proof.
  unfold tool_result_message, tool_result_block, answer.
  now rewrite tool_result_content_recorded.
Qed.

Lemma api_error_reported e : api_error e = [reported e].
Proof.
  unfold api_error, reported, line. rewrite !JsonFacts.append_assoc.
  reflexivity.
Qed.

Section LoopFacts.

Context {C : Collaborators}.

(** ** Processing the blocks of a response *)

Lemma process_blocks_spec : forall blocks params s,
  process_blocks blocks params s =
  (match raised (dispatch (tool_uses blocks) (world s)) with
   | None => inl (params ++ map block_param (filter recorded blocks))%list
   | Some e => inr e
   end,
   mkSession
     (set_messages (self s)
        (messages (self s)
         ++ map answer (answered (dispatch (tool_uses blocks) (world s))))%list)
     (world_after (dispatch (tool_uses blocks) (world s)))
     (files s)
     (stdout s
      ++ flat_map (fun ir => print_tool_result (snd ir))
           (answered (dispatch (tool_uses blocks) (world s))))%list
     (sent s) (beyond s)).
Proof.
  induction blocks as [|b blocks IH]; intros params s.
  - simpl. rewrite !List.app_nil_r. destruct s as [[] ? ? ? ? ?]; reflexivity.
  - destruct b as [text | id name input | t]; simpl.
    + destruct (truthy text); rewrite IH; simpl;
        [rewrite <- List.app_assoc|]; reflexivity.
    + destruct (tool_run name input (world s)) as [[result|e] w] eqn:Hrun.
      * rewrite IH; simpl. rewrite tool_result_message_answer.
        rewrite <- !List.app_assoc. reflexivity.
      * simpl. rewrite !List.app_nil_r.
        destruct s as [[] ? ? ? ? ?]; reflexivity.
    + apply IH.
Qed.

Lemma dispatch_ids : forall uses w,
  raised (dispatch uses w) = None ->
  map fst (answered (dispatch uses w)) = map (fun u => fst (fst u)) uses.
Proof.
  induction uses as [|[[id name] input] uses IH]; intros w; simpl.
  - reflexivity.
  - destruct (tool_run name input w) as [[result|e] w1]; simpl;
      [|discriminate].
    intros H. now rewrite (IH w1 H).
Qed.

Lemma dispatch_length uses w :
  raised (dispatch uses w) = None ->
  length (answered (dispatch uses w)) = length uses.
Proof.
  intros H. rewrite <- (length_map fst), (dispatch_ids _ _ H). apply length_map.
Qed.

Lemma recorded_tool_use : forall blocks,
  existsb is_tool_use (map block_param (filter recorded blocks))
  = match tool_uses blocks with [] => false | _ :: _ => true end.
Proof.
  induction blocks as [|b blocks IH]; [reflexivity|].
  destruct b as [text | id name input | t]; simpl.
  - destruct (truthy text); simpl; exact IH.
  - reflexivity.
  - exact IH.
Qed.

(** ** One turn *)

Lemma sampling_turn_completed s w chunks :
  create (build_request (self s)) (world s) = (Streams chunks None, w) ->
  sampling_turn s =
  (match raised (dispatch (tool_uses (response_content_blocks chunks)) w) with
   | Some e => Caught e
   | None =>
       match tool_uses (response_content_blocks chunks) with
       | [] => Return
       | _ :: _ => Again
       end
   end,
   completed s w chunks).
Proof.
  intros Hcreate. unfold sampling_turn. rewrite Hcreate.
  rewrite process_blocks_spec. cbn [world print self files stdout sent beyond].
  unfold completed.
  destruct (raised (dispatch (tool_uses (response_content_blocks chunks)) w))
    as [e|].
  - rewrite api_error_reported. unfold print, with_self.
    cbn [self world files stdout sent beyond].
    rewrite !List.app_nil_r, <- !List.app_assoc. reflexivity.
  - unfold print, with_self. cbn [self world files stdout sent beyond].
    change ([] ++ ?l)%list with l.
    rewrite recorded_tool_use, !List.app_nil_r.
    cbn [set_messages messages api_key model tool_version system].
    rewrite <- !List.app_assoc.
    destruct (tool_uses (response_content_blocks chunks)); reflexivity.
Qed.

Lemma completed_messages s w chunks :
  raised (dispatch (tool_uses (response_content_blocks chunks)) w) = None ->
  messages (self (completed s w chunks))
  = (messages (self s)
     ++ map answer
          (answered (dispatch (tool_uses (response_content_blocks chunks)) w))
     ++ [assistant_message
           (map block_param
              (filter recorded (response_content_blocks chunks)))])%list.
Proof. intros H. unfold completed. cbn. now rewrite H. Qed.


Lemma sampling_loop_S fuel s :
  sampling_loop (S fuel) s =
  match sampling_turn s with
  | (Again, s') => sampling_loop fuel s'
  | (Return, s') => (Returned, s')
  | (Caught e, s') => (ReturnedAfter e, s')
  end.
Proof. reflexivity. Qed.

Lemma sampling_turn_failed s w outcome e :
  create (build_request (self s)) (world s) = (outcome, w) ->
  outcome = CallRaises e \/ (exists chunks, outcome = Streams chunks (Some e)) ->
  fst (sampling_turn s) = Caught e
  /\ self (snd (sampling_turn s)) = self s
  /\ files (snd (sampling_turn s)) = files s
  /\ sent (snd (sampling_turn s)) = (sent s ++ [build_request (self s)])%list
  /\ exists shown,
       stdout (snd (sampling_turn s)) = (stdout s ++ shown ++ api_error e)%list.
Proof.
  intros Hcreate [-> | [chunks ->]]; unfold sampling_turn; rewrite Hcreate; simpl.
  - repeat split. now exists [].
  - repeat split. exists (receive_blocks (response_content_blocks chunks)).
    reflexivity.
Qed.

Lemma sampling_turn_sent s :
  sent (snd (sampling_turn s)) = (sent s ++ [build_request (self s)])%list.
Proof.
  destruct (create (build_request (self s)) (world s)) as [outcome w] eqn:Hc.
  destruct outcome as [e | chunks [e|]].
  - now destruct (sampling_turn_failed s w _ e Hc (or_introl eq_refl))
      as (_ & _ & _ & H & _).
  - now destruct (sampling_turn_failed s w _ e Hc
                    (or_intror (ex_intro _ chunks eq_refl)))
      as (_ & _ & _ & H & _).
  - now rewrite (sampling_turn_completed s w chunks Hc).
Qed.

(** ** The Cache Annotator *)

Lemma mark_recent_count : forall msgs budget,
  count_occ bool_dec (mark_recent budget msgs) true <= budget.
Proof.
  induction msgs as [|m msgs IH]; intros budget; simpl; [lia|].
  destruct (eligible m).
  - destruct budget as [|budget]; simpl.
    + apply IH.
    + specialize (IH budget). lia.
  - simpl. apply IH.
Qed.

Lemma mark_recent_length : forall msgs budget,
  length (mark_recent budget msgs) = length msgs.
Proof.
  induction msgs as [|m msgs IH]; intros budget; simpl; [reflexivity|].
  destruct (eligible m); [destruct budget|]; simpl; now rewrite IH.
Qed.

Lemma count_occ_rev_true (l : list bool) :
  count_occ bool_dec (rev l) true = count_occ bool_dec l true.
Proof.
  induction l as [|b l IH]; [reflexivity|].
  simpl rev. rewrite count_occ_app, IH. simpl.
  destruct (bool_dec b true); lia.
Qed.

Lemma build_request_annotated self : cache_annotated (build_request self).
Proof.
  unfold cache_annotated, build_request; simpl. repeat split.
  - eexists; split; [reflexivity | apply dict_get_set_same].
  - unfold inject_prompt_caching.
    rewrite count_occ_rev_true. apply mark_recent_count.
  - unfold inject_prompt_caching.
    now rewrite length_rev, mark_recent_length, length_rev.
Qed.

End LoopFacts.

(** ** Tool results *)

(** C5: a raw tool result whose error is present (not empty) becomes a
    tool_result block with is_error true whose content is exactly the error
    text, whatever output or image it also carries; when the error is absent
    (or empty) is_error is false and the content is the list made of a text
    block for the output (if there is any) and an image block for the image
    (if there is one). *)
Theorem tool_result_error_replaces_output :
  forall (result : ToolResult) (id : string),
    (forall e, error result = Some e -> e <> "" ->
       tool_result_block result id
       = JObj [("type", JStr "tool_result");
               ("content", JStr e);
               ("tool_use_id", JStr id);
               ("is_error", JBool true)])
    /\ (error result = None \/ error result = Some "" ->
        tool_result_block result id
        = JObj [("type", JStr "tool_result");
                ("content",
                 JArr (map (fun t =>
                              JObj [("type", JStr "text"); ("text", JStr t)])
                         (present (output result))
                       ++ map (fun d =>
                                 JObj [("type", JStr "image");
                                       ("source",
                                        JObj [("type", JStr "base64");
                                              ("media_type", JStr "image/png");
                                              ("data", JStr d)])])
                           (present (base64_image result)))%list);
                ("tool_use_id", JStr id);
                ("is_error", JBool false)]).
Proof.
  intros result id; split.
  - intros e He Hne.
    unfold tool_result_block. rewrite tool_result_content_recorded.
    unfold recorded_result. rewrite He. simpl.
    destruct (String.eqb_spec e ""); [contradiction | reflexivity].
  - intros Hnone.
    unfold tool_result_block. rewrite tool_result_content_recorded.
    unfold recorded_result.
    destruct Hnone as [-> | ->]; reflexivity.
Qed.

(** ** The turn loop *)

Section TurnLoop.

Context {C : Collaborators}.

Lemma filter_answers_user results :
  filter (has_role "user") (map answer results) = map answer results.
Proof. induction results as [|r rs IH]; simpl; [reflexivity | now rewrite IH]. Qed.

Lemma filter_answers_assistant results :
  filter (has_role "assistant") (map answer results) = [].
Proof. induction results as [|r rs IH]; simpl; [reflexivity | exact IH]. Qed.

Lemma answers_match : forall uses results,
  map fst results = map (fun u : string * string * json => fst (fst u)) uses ->
  Forall2
    (fun use m =>
       exists is_error content,
         m = JObj [("content",
                    JArr [JObj [("type", JStr "tool_result");
                                ("content", content);
                                ("tool_use_id", JStr (fst (fst use)));
                                ("is_error", JBool is_error)]]);
                   ("role", JStr "user")])
    uses (map answer results).
Proof.
  induction uses as [|u us IH]; intros [|[id r] rs] Hids;
    simpl in Hids; try discriminate; constructor.
  - injection Hids as -> _.
    exists (fst (recorded_result r)), (snd (recorded_result r)). reflexivity.
  - apply IH. injection Hids as _ Htl. exact Htl.
Qed.

(** What a turn whose stream was read to the end appends when no tool
    raises: the answers to the tool uses, and the assistant message. *)
Lemma completed_turn s w chunks :
  create (build_request (self s)) (world s) = (Streams chunks None, w) ->
  raised (dispatch (tool_uses (response_content_blocks chunks)) w) = None ->
  messages (self (snd (sampling_turn s)))
  = (messages (self s)
     ++ map answer
          (answered (dispatch (tool_uses (response_content_blocks chunks)) w))
     ++ [JObj [("role", JStr "assistant");
               ("content",
                JArr (map block_param
                        (filter recorded (response_content_blocks chunks))))]])%list
  /\ fst (sampling_turn s)
     = match tool_uses (response_content_blocks chunks) with
       | [] => Return
       | _ :: _ => Again
       end.
Proof.
  intros Hcreate Hreturn.
  rewrite (sampling_turn_completed s w chunks Hcreate), Hreturn.
  cbn [fst snd]. now rewrite (completed_messages s w chunks Hreturn).
Qed.

(** C1 (amended): a turn whose response holds N tool-use blocks (N >= 1),
    and whose tools all return, appends N + 1 messages: exactly one
    assistant message, which holds the recorded blocks of the response, and
    exactly N user messages, each with exactly one tool_result block; the
    i-th of them answers the i-th tool use, with the result its tool
    returned; and the loop goes on. *)
Theorem tool_turn_appends_one_result_per_use s w chunks :
  create (build_request (self s)) (world s) = (Streams chunks None, w) ->
  tool_uses (response_content_blocks chunks) <> [] ->
  raised (dispatch (tool_uses (response_content_blocks chunks)) w) = None ->
  exists appended,
    messages (self (snd (sampling_turn s)))
    = (messages (self s) ++ appended)%list
    /\ length appended
       = length (tool_uses (response_content_blocks chunks)) + 1
    /\ filter (has_role "assistant") appended
       = [JObj [("role", JStr "assistant");
                ("content",
                 JArr (map block_param
                         (filter recorded (response_content_blocks chunks))))]]
    /\ filter (has_role "user") appended
       = map answer
           (answered
              (dispatch (tool_uses (response_content_blocks chunks)) w))
    /\ Forall2
         (fun use m =>
            exists is_error content,
              m = JObj [("content",
                         JArr [JObj [("type", JStr "tool_result");
                                     ("content", content);
                                     ("tool_use_id", JStr (fst (fst use)));
                                     ("is_error", JBool is_error)]]);
                        ("role", JStr "user")])
         (tool_uses (response_content_blocks chunks))
         (filter (has_role "user") appended)
    /\ fst (sampling_turn s) = Again.
Proof.
  intros Hcreate Huses Hreturn.
  destruct (completed_turn s w chunks Hcreate Hreturn) as [Hmsgs Hend].
  set (blocks := response_content_blocks chunks) in *.
  set (run := dispatch (tool_uses blocks) w) in *.
  eexists. split; [exact Hmsgs|].
  assert (Hfu : forall a,
             filter (has_role "user")
               (map answer (answered run)
                ++ [JObj [("role", JStr "assistant"); ("content", a)]])%list
             = map answer (answered run)).
  { intros a. rewrite filter_app, filter_answers_user. simpl.
    apply List.app_nil_r. }
  repeat split.
  - rewrite length_app, length_map. unfold run.
    rewrite (dispatch_length _ _ Hreturn). reflexivity.
  - rewrite filter_app, filter_answers_assistant. reflexivity.
  - apply Hfu.
  - rewrite Hfu. apply answers_match. exact (dispatch_ids _ _ Hreturn).
  - rewrite Hend. destruct (tool_uses blocks); [contradiction | reflexivity].
Qed.

Lemma sampling_loop_after_turns : forall n fuel s0 s,
  after_turns n s0 = Some s ->
  sampling_loop (n + fuel) s0 = sampling_loop fuel s.
Proof.
  induction n as [|n IH]; intros fuel s0 s H; simpl in H.
  - now injection H as ->.
  - change (S n + fuel) with (S (n + fuel)). rewrite sampling_loop_S.
    destruct (sampling_turn s0) as [[ | | e] s']; try discriminate.
    now apply IH.
Qed.

Lemma run_loop_input fuel l rest s0 :
  Str.startswith (Str.strip l) "/" = false ->
  run_loop fuel (l :: rest) s0
  = match sampling_loop fuel (prompted s0 l) with
    | (Running, s3) => (Blocked, s3)
    | (_, s3) => run_loop fuel rest (print [line Str.nl] s3)
    end.
Proof.
  intros Hcmd.
  change (run_loop fuel (l :: rest) s0)
    with (if Str.startswith (Str.strip l) "/"
          then match handle_command (Str.strip l)
                       (print [TerminalColors.BLUE ++ "You:"
                               ++ TerminalColors.ENDC ++ " "] s0) with
               | (Returns false, s1) => (Exited, s1)
               | (Returns true, s1) => run_loop fuel rest s1
               | (Raises e', s1) => (Crashed e', print (run_error e') s1)
               end
          else match sampling_loop fuel (prompted s0 l) with
               | (Running, s3) => (Blocked, s3)
               | (_, s3) => run_loop fuel rest (print [line Str.nl] s3)
               end).
  now rewrite Hcmd.
Qed.

(** A tool raises before any tool of the turn has returned. *)
Lemma sampling_turn_first_tool_raises s w chunks e :
  create (build_request (self s)) (world s) = (Streams chunks None, w) ->
  answered (dispatch (tool_uses (response_content_blocks chunks)) w) = [] ->
  raised (dispatch (tool_uses (response_content_blocks chunks)) w) = Some e ->
  fst (sampling_turn s) = Caught e
  /\ self (snd (sampling_turn s)) = self s
  /\ stdout (snd (sampling_turn s))
     = (stdout s ++ receive_blocks (response_content_blocks chunks)
        ++ [reported e])%list.
Proof.
  intros Hcreate Hnone Hraise.
  rewrite (sampling_turn_completed s w chunks Hcreate), Hraise.
  unfold completed. cbn [fst snd self stdout]. rewrite Hnone, Hraise.
  cbn [map flat_map app]. rewrite List.app_nil_r.
  repeat split. destruct s as [[] ? ? ? ? ?]; reflexivity.
Qed.

(** C2 (amended): when the remote call raises, or the stream raises before
    it ends, or a tool raises before any tool of the turn has returned, the
    loop returns with the interface (so the transcript) exactly as it was
    when the turn began: nothing is appended; the error is the last thing
    printed; and [run], whichever turn of the loop failed, goes on to read
    the next line of input. *)
Theorem failed_turn_leaves_transcript s w outcome e :
  create (build_request (self s)) (world s) = (outcome, w) ->
  outcome = CallRaises e
  \/ (exists chunks, outcome = Streams chunks (Some e))
  \/ (exists chunks,
        outcome = Streams chunks None
        /\ answered (dispatch (tool_uses (response_content_blocks chunks)) w)
           = []
        /\ raised (dispatch (tool_uses (response_content_blocks chunks)) w)
           = Some e) ->
  (forall fuel,
      sampling_loop (S fuel) s = (ReturnedAfter e, snd (sampling_turn s)))
  /\ self (snd (sampling_turn s)) = self s
  /\ messages (self (snd (sampling_turn s))) = messages (self s)
  /\ (exists shown,
        stdout (snd (sampling_turn s))
        = (stdout s ++ shown
           ++ [(String "010" (String "027" "[91mError calling Claude API: ")
                ++ e ++ String "027" "[0m" ++ String "010" "")%string])%list)
  /\ (forall n fuel s0 l rest,
        Str.startswith (Str.strip l) "/" = false ->
        after_turns n (prompted s0 l) = Some s ->
        run_loop (n + S fuel) (l :: rest) s0
        = run_loop (n + S fuel) rest
            (print [line Str.nl] (snd (sampling_turn s)))).
Proof.
  intros Hcreate Hfail.
  assert (H : fst (sampling_turn s) = Caught e
              /\ self (snd (sampling_turn s)) = self s
              /\ exists shown,
                   stdout (snd (sampling_turn s))
                   = (stdout s ++ shown ++ [reported e])%list).
  { destruct Hfail as [Hcall | [Hstream | (chunks & -> & Hnone & Hraise)]].
    - destruct (sampling_turn_failed s w outcome e Hcreate (or_introl Hcall))
        as (Hend & Hself & _ & _ & Hout).
      rewrite api_error_reported in Hout. auto.
    - destruct (sampling_turn_failed s w outcome e Hcreate (or_intror Hstream))
        as (Hend & Hself & _ & _ & Hout).
      rewrite api_error_reported in Hout. auto.
    - destruct (sampling_turn_first_tool_raises s w chunks e
                  Hcreate Hnone Hraise) as (Hend & Hself & Hout).
      eauto. }
  destruct H as (Hend & Hself & Hout).
  assert (Hloop : forall fuel,
             sampling_loop (S fuel) s = (ReturnedAfter e, snd (sampling_turn s))).
  { intros fuel. rewrite sampling_loop_S.
    destruct (sampling_turn s) as [t s'] eqn:Ht. simpl in Hend. now subst t. }
  repeat split.
  - exact Hloop.
  - exact Hself.
  - now rewrite Hself.
  - exact Hout.
  - intros n fuel s0 l rest Hcmd Hturns.
    rewrite (run_loop_input _ _ _ _ Hcmd).
    now rewrite (sampling_loop_after_turns n (S fuel) _ _ Hturns), Hloop.
Qed.

(** C3 (amended): when the stream was read to the end and no tool raises,
    the turn appends exactly one assistant message, and it holds, as
    dictionaries with the fields of the blocks and in the order of the
    response, every tool-use block and every text block whose text is not
    empty, and nothing else. *)
Theorem assistant_message_holds_recorded_blocks s w chunks :
  create (build_request (self s)) (world s) = (Streams chunks None, w) ->
  raised (dispatch (tool_uses (response_content_blocks chunks)) w) = None ->
  exists appended,
    messages (self (snd (sampling_turn s)))
    = (messages (self s) ++ appended)%list
    /\ filter (has_role "assistant") appended
       = [JObj [("role", JStr "assistant");
                ("content",
                 JArr (map block_param
                         (filter recorded (response_content_blocks chunks))))]].
Proof.
  intros Hcreate Hreturn.
  destruct (completed_turn s w chunks Hcreate Hreturn) as [Hmsgs _].
  eexists; split; [exact Hmsgs|].
  rewrite filter_app, filter_answers_assistant. reflexivity.
Qed.


(** C7: every request that the loop sends carries a system block with the
    cache annotation and marks at most [max_cache_breakpoints] messages,
    however long the transcript is. *)
Theorem every_request_cache_annotated fuel s :
  cache_annotated (build_request (self s))
  /\ exists new,
       sent (snd (sampling_loop fuel s)) = (sent s ++ new)%list
       /\ Forall cache_annotated new.
Proof.
  split; [apply build_request_annotated|].
  revert s; induction fuel as [|fuel IH]; intros s; simpl.
  - exists []. split; [now rewrite List.app_nil_r | constructor].
  - pose proof (sampling_turn_sent s) as Hsent.
    destruct (sampling_turn s) as [[ | | e] s'] eqn:Ht; simpl in Hsent.
    + destruct (IH s') as (new & Hnew & HF).
      exists (build_request (self s) :: new). split.
      * rewrite Hnew, Hsent, <- List.app_assoc. reflexivity.
      * constructor; [apply build_request_annotated | exact HF].
    + exists [build_request (self s)]. split; [exact Hsent|].
      constructor; [apply build_request_annotated | constructor].
    + exists [build_request (self s)]. split; [exact Hsent|].
      constructor; [apply build_request_annotated | constructor].
Qed.

(** C10 (amended): a turn whose stream was read to the end, and whose tools
    all return, appends exactly one assistant message; when the response
    holds no block at all, that message has empty content, it is the only
    message appended, and the loop returns. *)
Theorem drained_stream_appends_one_assistant s w chunks :
  create (build_request (self s)) (world s) = (Streams chunks None, w) ->
  (raised (dispatch (tool_uses (response_content_blocks chunks)) w) = None ->
   exists appended,
     messages (self (snd (sampling_turn s)))
     = (messages (self s) ++ appended)%list
     /\ length (filter (has_role "assistant") appended) = 1)
  /\ (response_content_blocks chunks = [] ->
      messages (self (snd (sampling_turn s)))
      = (messages (self s)
         ++ [JObj [("role", JStr "assistant"); ("content", JArr [])]])%list
      /\ fst (sampling_turn s) = Return
      /\ forall fuel, fst (sampling_loop (S fuel) s) = Returned).
Proof.
  intros Hcreate. split.
  - intros Hreturn.
    destruct (completed_turn s w chunks Hcreate Hreturn) as [Hmsgs _].
    eexists; split; [exact Hmsgs|].
    rewrite filter_app, filter_answers_assistant. reflexivity.
  - intros Hnone.
    assert (Hreturn :
      raised (dispatch (tool_uses (response_content_blocks chunks)) w) = None)
      by now rewrite Hnone.
    destruct (completed_turn s w chunks Hcreate Hreturn) as [Hmsgs Hend].
    rewrite Hnone in Hmsgs, Hend. cbn in Hmsgs, Hend.
    split; [exact Hmsgs|]. split; [exact Hend|].
    intros fuel. rewrite sampling_loop_S.
    destruct (sampling_turn s) as [t s']. cbn [fst] in *. now subst t.
Qed.

End TurnLoop.

(** ** The commands *)

Section Commands.

Context {C : Collaborators}.

Lemma handle_command_save command first filename extra s :
  Str.split command = first :: filename :: extra ->
  Str.lower first = "/save" ->
  handle_command command s = (Returns true, save filename s).
Proof.
  intros Hsplit Hlower. unfold handle_command. rewrite Hsplit, Hlower.
  reflexivity.
Qed.

Lemma handle_command_load command first filename extra s :
  Str.split command = first :: filename :: extra ->
  Str.lower first = "/load" ->
  handle_command command s = (Returns true, load filename s).
Proof.
  intros Hsplit Hlower. unfold handle_command. rewrite Hsplit, Hlower.
  reflexivity.
Qed.

Lemma save_self filename s : self (save filename s) = self s.
Proof.
  unfold save. destruct (write_error (files s) filename); [reflexivity|].
  destruct (serializable_messages (messages (self s))); reflexivity.
Qed.

Lemma writable_no_error fs name :
  writable fs name = true -> write_error fs name = None.
Proof. unfold writable. now destruct (write_error fs name). Qed.

Lemma contents_written fs name text :
  contents (write_file fs name text) name = Some text.
Proof. unfold contents, write_file. simpl. now rewrite String.eqb_refl. Qed.

(** What [/save] does when the file can be written and every message has a
    role and content. *)
Lemma save_written filename s l :
  writable (files s) filename = true ->
  serializable_messages (messages (self s)) = inl l ->
  save filename s
  = print [line ("Conversation saved to " ++ filename)]
      (with_files s
         (write_file (files s) filename (Json.dumps_indent 2 (JArr l)))).
Proof.
  intros Hw Hl. unfold save. now rewrite (writable_no_error _ _ Hw), Hl.
Qed.

(** What [/load] does with a file that holds a list of the model. *)
Lemma load_list filename s text items :
  contents (files s) filename = Some text ->
  Json.loads text = Json.Value (JArr items) ->
  load filename s
  = match load_messages items [] with
    | LoadedAll msgs =>
        print [line ("Conversation loaded from " ++ filename)]
          (with_self s (set_messages (self s) msgs))
    | LoadRaised msgs e =>
        print (load_error e) (with_self s (set_messages (self s) msgs))
    | LoadedBeyond => lost s
    end.
Proof. intros Hc Hl. unfold load. now rewrite Hc, Hl. Qed.

Lemma portable_fields m :
  portable m = true ->
  exists d r c,
    m = JObj d /\ dict_get "role" d = Some r /\ dict_get "content" d = Some c
    /\ Json.well_formed r = true
    /\ ((exists blocks, c = JArr blocks /\ Json.well_formed c = true)
        \/ (exists t, c = JStr t /\ reads_as_json t = false)).
Proof.
  unfold portable. destruct m as [ | | | | | d]; simpl; try discriminate.
  destruct (dict_get "role" d) as [r|] eqn:Er; [|discriminate].
  destruct (dict_get "content" d) as [c|] eqn:Ec; [|discriminate].
  destruct c as [ | | | t | blocks | ]; try discriminate; intros H;
    apply andb_prop in H as [Hr Hc].
  - exists d, r, (JStr t). split; [reflexivity|]. repeat (split; [easy|]).
    right. exists t. split; [reflexivity|]. now apply negb_true_iff in Hc.
  - exists d, r, (JArr blocks). split; [reflexivity|]. repeat (split; [easy|]).
    left. exists blocks. split; [reflexivity | exact Hc].
Qed.

Lemma serializable_portable : forall msgs,
  forallb portable msgs = true ->
  serializable_messages msgs = inl (map stored msgs).
Proof.
  induction msgs as [|m msgs IH]; [reflexivity|]; intros H.
  simpl in H. apply andb_prop in H as [Hm Hrest].
  destruct (portable_fields m Hm) as (d & r & c & -> & Hr & Hc & _ & _).
  simpl. rewrite Hr, Hc, (IH Hrest). unfold stored. simpl.
  now rewrite Hr, Hc.
Qed.

Lemma stored_well_formed : forall msgs,
  forallb portable msgs = true ->
  Json.well_formed (JArr (map stored msgs)) = true.
Proof.
  induction msgs as [|m msgs IH]; [reflexivity|]; intros H.
  simpl in H. apply andb_prop in H as [Hm Hrest].
  change (Json.well_formed (JArr (map stored (m :: msgs))))
    with (Json.well_formed (stored m)
          && Json.well_formed (JArr (map stored msgs))).
  rewrite (IH Hrest), andb_true_r.
  destruct (portable_fields m Hm) as (d & r & c & -> & Hr & Hc & Hwf & _).
  unfold stored. simpl. rewrite Hr, Hc. simpl. rewrite Hwf.
  now destruct c.
Qed.

Lemma dumps_array_bracket blocks :
  Str.startswith (Json.dumps (JArr blocks)) "[" = true.
Proof.
  destruct blocks as [|x xs]; [reflexivity|].
  unfold Json.dumps.
  change (Json.encode None 0 (JArr (x :: xs)))
    with (String "[" (Json.newline_indent None 1
            ++ String.concat
                 (Json.item_separator None ++ Json.newline_indent None 1)
                 (map (Json.encode None 1) (x :: xs))
            ++ Json.newline_indent None 0 ++ "]")).
  reflexivity.
Qed.

Lemma parse_content_text msg t :
  parse_content msg (JStr t)
  = if Str.startswith t "[" then
      match Json.loads t with
      | Json.Value v => Some (set_item msg "content" v)
      | Json.Invalid => Some msg
      | Json.Beyond _ => None
      end
    else Some msg.
Proof. reflexivity. Qed.

Lemma load_messages_cons msg rest acc c :
  subscript msg "content" = inl c ->
  load_messages (msg :: rest) acc
  = match parse_content msg c with
    | Some msg' => load_messages rest (acc ++ [msg'])%list
    | None => LoadedBeyond
    end.
Proof. intros H. simpl. now rewrite H. Qed.

Lemma parse_content_kept msg t :
  reads_as_json t = false -> parse_content msg (JStr t) = Some msg.
Proof.
  unfold reads_as_json. rewrite parse_content_text. intros H.
  destruct (Str.startswith t "["); [|reflexivity].
  destruct (Json.loads t); try discriminate; reflexivity.
Qed.

Lemma load_stored m rest acc :
  portable m = true ->
  load_messages (stored m :: rest) acc
  = load_messages rest (acc ++ [canonical m])%list.
Proof.
  intros Hm.
  destruct (portable_fields m Hm)
    as (d & r & c & -> & Hr & Hc & _ & [(blocks & -> & Hwf) | (t & -> & Ht)]);
    unfold stored, canonical; simpl field; rewrite Hr, Hc.
  - rewrite (load_messages_cons _ _ _ (JStr (Json.dumps (JArr blocks))))
      by reflexivity.
    rewrite parse_content_text, dumps_array_bracket,
      (JsonFacts.loads_dumps _ Hwf).
    reflexivity.
  - rewrite (load_messages_cons _ _ _ (JStr t)) by reflexivity.
    now rewrite (parse_content_kept _ _ Ht).
Qed.

Lemma load_messages_stored : forall msgs acc,
  forallb portable msgs = true ->
  load_messages (map stored msgs) acc = LoadedAll (acc ++ map canonical msgs)%list.
Proof.
  induction msgs as [|m msgs IH]; intros acc H.
  - simpl. now rewrite List.app_nil_r.
  - simpl in H. apply andb_prop in H as [Hm Hrest].
    change (map stored (m :: msgs)) with (stored m :: map stored msgs).
    rewrite (load_stored m _ acc Hm), (IH _ Hrest), <- List.app_assoc.
    reflexivity.
Qed.

Lemma canonical_same : forall msgs,
  forallb portable msgs = true ->
  Forall2 same_message msgs (map canonical msgs).
Proof.
  induction msgs as [|m msgs IH]; intros H; [constructor|].
  simpl in H. apply andb_prop in H as [Hm Hrest].
  constructor; [|exact (IH Hrest)].
  destruct (portable_fields m Hm) as (d & r & c & -> & Hr & Hc & _).
  unfold same_message, canonical. simpl field. rewrite Hr, Hc.
  split; reflexivity.
Qed.

(** C6 (amended): after [/save f] and then [/load f], with [f] a file
    that can be written, the transcript is the sequence of the same
    messages, each with the role and the content it had, provided every
    message has a role and content that is a list of blocks or a string,
    except a string that starts with a bracket and reads as JSON: lists
    survive the [dumps]/[loads] cycle unchanged, and such strings stay
    strings. *)
Theorem save_then_load_restores save_cmd load_cmd first first' filename
    extra extra' s :
  Str.split save_cmd = first :: filename :: extra ->
  Str.lower first = "/save" ->
  Str.split load_cmd = first' :: filename :: extra' ->
  Str.lower first' = "/load" ->
  writable (files s) filename = true ->
  forallb portable (messages (self s)) = true ->
  messages (self (snd (handle_command load_cmd
                         (snd (handle_command save_cmd s)))))
  = map canonical (messages (self s))
  /\ Forall2 same_message (messages (self s))
       (messages (self (snd (handle_command load_cmd
                               (snd (handle_command save_cmd s)))))).
Proof.
  intros Hsave Hfirst Hload Hfirst' Hw Hportable.
  assert (Hmsgs :
    messages (self (snd (handle_command load_cmd
                           (snd (handle_command save_cmd s)))))
    = map canonical (messages (self s))).
  { rewrite (handle_command_save _ _ _ _ s Hsave Hfirst).
    rewrite (handle_command_load _ _ _ _ _ Hload Hfirst').
    cbn [snd].
    rewrite (save_written _ _ _ Hw (serializable_portable _ Hportable)).
    rewrite (load_list filename _
               (Json.dumps_indent 2 (JArr (map stored (messages (self s)))))
               (map stored (messages (self s)))).
    - now rewrite (load_messages_stored _ [] Hportable).
    - apply contents_written.
    - apply JsonFacts.loads_dumps_indent, stored_well_formed, Hportable. }
  split; [exact Hmsgs|].
  rewrite Hmsgs. apply canonical_same. exact Hportable.
Qed.

(** C8: [/clear] on an empty transcript leaves the interface as it was,
    its transcript empty. *)
Theorem clear_empty_is_identity s :
  messages (self s) = [] ->
  self (snd (handle_command "/clear" s)) = self s
  /\ messages (self (snd (handle_command "/clear" s))) = []
  /\ fst (handle_command "/clear" s) = Returns true.
Proof.
  intros Hempty. repeat split.
  change (set_messages (self s) [] = self s).
  destruct s as [[k m t msgs sys] w f o r b]. simpl in *. now subst msgs.
Qed.

(** C9: [/save] leaves the interface, and with it every message of the
    transcript, as it was, whether or not the file could be written; the
    collaborators are not called. *)
Theorem save_leaves_transcript command first args s :
  Str.split command = first :: args ->
  Str.lower first = "/save" ->
  self (snd (handle_command command s)) = self s
  /\ messages (self (snd (handle_command command s))) = messages (self s)
  /\ world (snd (handle_command command s)) = world s
  /\ sent (snd (handle_command command s)) = sent s.
Proof.
  intros Hsplit Hlower.
  assert (H : self (snd (handle_command command s)) = self s
              /\ world (snd (handle_command command s)) = world s
              /\ sent (snd (handle_command command s)) = sent s).
  { unfold handle_command. rewrite Hsplit, Hlower.
    change (String.eqb "/save" "/exit") with false.
    change (String.eqb "/save" "/clear") with false.
    change (String.eqb "/save" "/help") with false.
    change (String.eqb "/save" "/save") with true.
    cbv match. destruct args as [|filename extra]; [now repeat split|].
    cbn [snd]. unfold save.
    destruct (write_error (files s) filename); [now repeat split|].
    destruct (serializable_messages (messages (self s))); now repeat split. }
  destruct H as (Hself & Hworld & Hsent).
  repeat split; try assumption. now rewrite Hself.
Qed.

End Commands.

(** ** More on the commands *)

Lemma split_from_word : forall s word,
  word <> "" -> Str.split_from word s <> [].
Proof.
  induction s as [|c s IH]; intros word Hw; simpl.
  - destruct (String.eqb_spec word ""); [contradiction | discriminate].
  - destruct (Str.is_space c).
    + destruct (String.eqb_spec word ""); [contradiction | discriminate].
    + apply IH. now destruct word.
Qed.

Lemma split_head c s : Str.is_space c = false -> Str.split (String c s) <> [].
Proof.
  intros Hc. unfold Str.split. simpl. rewrite Hc.
  apply split_from_word. discriminate.
Qed.

Lemma startswith_slash s :
  Str.startswith s "/" = true -> exists rest, s = String "/" rest.
Proof.
  destruct s as [|c s]; [discriminate|].
  change (Str.startswith (String c s) "/")
    with (Ascii.eqb "/" c && Str.startswith s "").
  intros H. apply andb_prop in H as [H _].
  apply Ascii.eqb_eq in H. subst c. now exists s.
Qed.

Lemma lstrip_spaces : forall l,
  forallb Str.is_space (list_ascii_of_string l) = true -> Str.lstrip l = "".
Proof.
  induction l as [|c l IH]; simpl; [reflexivity|].
  intros H. apply andb_prop in H as [Hc Hl]. rewrite Hc. now apply IH.
Qed.

Lemma strip_spaces l :
  forallb Str.is_space (list_ascii_of_string l) = true -> Str.strip l = "".
Proof. intros H. unfold Str.strip. now rewrite lstrip_spaces. Qed.

Section CommandExtras.

Context {C : Collaborators}.

Lemma save_frame filename s :
  self (save filename s) = self s
  /\ world (save filename s) = world s
  /\ sent (save filename s) = sent s
  /\ (forall name, path (files (save filename s)) name = path (files s) name)
  /\ (forall name, write_error (files (save filename s)) name
                   = write_error (files s) name)
  /\ (forall p, p <> path (files s) filename ->
        texts (files (save filename s)) p = texts (files s) p)
  /\ exists out, stdout (save filename s) = (stdout s ++ out)%list.
Proof.
  unfold save. destruct (write_error (files s) filename).
  - simpl. repeat split; eauto.
  - destruct (serializable_messages (messages (self s))); simpl;
      repeat split; eauto;
      intros p Hne; destruct (String.eqb_spec p (path (files s) filename));
      [contradiction | reflexivity | contradiction | reflexivity].
Qed.

Lemma load_frame filename s :
  api_key (self (load filename s)) = api_key (self s)
  /\ model (self (load filename s)) = model (self s)
  /\ tool_version (self (load filename s)) = tool_version (self s)
  /\ system (self (load filename s)) = system (self s)
  /\ world (load filename s) = world s
  /\ sent (load filename s) = sent s
  /\ files (load filename s) = files s
  /\ exists out, stdout (load filename s) = (stdout s ++ out)%list.
Proof.
  assert (Hnil : exists out : list string, stdout s = (stdout s ++ out)%list)
    by (exists []; now rewrite List.app_nil_r).
  unfold load. destruct (contents (files s) filename) as [text|].
  - destruct (Json.loads text) as [v | [] | ].
    + destruct (iterate v) as [items|e].
      * destruct (load_messages items []) as [msgs | msgs e | ]; simpl;
          repeat split; eauto.
      * simpl; repeat split; eauto.
    + simpl; repeat split; eauto.
    + simpl; repeat split; eauto.
    + simpl; repeat split; eauto.
    + simpl; repeat split; eauto.
    + simpl; repeat split; eauto.
  - simpl; repeat split; eauto.
Qed.

(** The branches of [handle_command], one by one. *)
Ltac command_cases command w0 a0 :=
  unfold handle_command, command_word, command_file;
  destruct (Str.split command) as [|w0 a0];
  [ | destruct (String.eqb (Str.lower w0) "/exit") eqn:Hexit;
      [ | destruct (String.eqb (Str.lower w0) "/clear") eqn:Hclear;
          [ | destruct (String.eqb (Str.lower w0) "/help") eqn:Hhelp;
              [ | destruct (String.eqb (Str.lower w0) "/save") eqn:Hsave;
                  [ destruct a0 as [|filename extra]
                  | destruct (String.eqb (Str.lower w0) "/load") eqn:Hload;
                    [ destruct a0 as [|filename extra] | ] ] ] ] ] ].

(** X1: no command calls the remote service or runs a tool, and no command
    changes the key, the model, the tool version or the system prompt of the
    interface; what a command prints is added to what was printed. *)
Theorem commands_leave_collaborators command s :
  world (snd (handle_command command s)) = world s
  /\ sent (snd (handle_command command s)) = sent s
  /\ api_key (self (snd (handle_command command s))) = api_key (self s)
  /\ model (self (snd (handle_command command s))) = model (self s)
  /\ tool_version (self (snd (handle_command command s)))
     = tool_version (self s)
  /\ system (self (snd (handle_command command s))) = system (self s)
  /\ exists out,
       stdout (snd (handle_command command s)) = (stdout s ++ out)%list.
Proof.
  command_cases command w0 a0; cbn [snd];
    try (simpl; repeat split; eauto; exists []; now rewrite List.app_nil_r).
  - destruct (save_frame filename s) as (Hself & Hw & Hs & _ & _ & _ & Hout).
    rewrite Hself. repeat split; assumption.
  - destruct (load_frame filename s) as (? & ? & ? & ? & ? & ? & _ & ?).
    repeat split; assumption.
Qed.

Lemma handle_command_end command s :
  (fst (handle_command command s) = Raises "list index out of range"
   <-> command_word command = None)
  /\ (fst (handle_command command s) = Returns false
      <-> command_word command = Some "/exit")
  /\ (forall word, command_word command = Some word -> word <> "/exit" ->
        fst (handle_command command s) = Returns true).
Proof.
  unfold handle_command, command_word.
  destruct (Str.split command) as [|w0 a0].
  - repeat split; intros; try discriminate; reflexivity.
  - destruct (String.eqb_spec (Str.lower w0) "/exit") as [He|He].
    + cbn [fst]. repeat split; intros; try discriminate; congruence.
    + match goal with
      | |- context [fst ?r] => assert (Hr : fst r = Returns true)
      end.
      { repeat match goal with
               | |- context [if ?b then _ else _] => destruct b
               end;
          try destruct a0; reflexivity. }
      rewrite Hr. repeat split; intros; try discriminate; congruence.
Qed.

Lemma handle_command_raises command s e :
  fst (handle_command command s) = Raises e -> command_word command = None.
Proof.
  unfold handle_command, command_word.
  destruct (Str.split command) as [|w0 a0]; [reflexivity|].
  repeat match goal with
         | |- context [if ?b then _ else _] => destruct b
         end;
    try destruct a0; discriminate.
Qed.

(** X2: how a command ends.  It raises exactly when the command line has no
    word; it returns [False] exactly when its first word, in lower case, is
    [/exit]; in every other case it returns [True]. *)
Theorem command_end command s :
  (fst (handle_command command s) = Raises "list index out of range"
   <-> command_word command = None)
  /\ (fst (handle_command command s) = Returns false
      <-> command_word command = Some "/exit")
  /\ (forall word, command_word command = Some word -> word <> "/exit" ->
        fst (handle_command command s) = Returns true).
Proof. exact (handle_command_end command s). Qed.

(** X3: only [/clear] and [/load] touch the interface: after any other
    command it is as it was, with its transcript. *)
Theorem other_commands_keep_transcript command s :
  command_word command <> Some "/clear" ->
  command_word command <> Some "/load" ->
  self (snd (handle_command command s)) = self s.
Proof.
  command_cases command w0 a0; cbn [snd]; intros Hc Hl;
    try reflexivity;
    try apply String.eqb_eq in Hclear;
    try apply String.eqb_eq in Hload;
    try (exfalso; apply Hc; now rewrite Hclear);
    try (exfalso; apply Hl; now rewrite Hload).
  apply save_frame.
Qed.

(** X4: a command writes no file but the one that [/save] names.  Every
    file that is not the one that name denotes keeps its text, under all its
    names; and no command changes which file a name denotes or which names
    can be opened for writing. *)
Theorem commands_write_only_named_file command s p :
  (forall name,
      command_word command = Some "/save" ->
      command_file command = Some name -> path (files s) name <> p) ->
  texts (files (snd (handle_command command s))) p = texts (files s) p
  /\ (forall n, path (files (snd (handle_command command s))) n
                = path (files s) n)
  /\ (forall n, write_error (files (snd (handle_command command s))) n
                = write_error (files s) n).
Proof.
  command_cases command w0 a0; cbn [snd]; intros Hname;
    try (repeat split; reflexivity).
  - apply String.eqb_eq in Hsave.
    destruct (save_frame filename s) as (_ & _ & _ & Hp & Hw & Hc & _).
    split; [|split; [exact Hp | exact Hw]].
    apply Hc. intros ->. apply (Hname filename); [|reflexivity..].
    now rewrite Hsave.
  - destruct (load_frame filename s) as (_ & _ & _ & _ & _ & _ & Hf & _).
    now rewrite Hf.
Qed.

End CommandExtras.

(** ** More on [/save] and [/load] *)

Section FileExtras.

Context {C : Collaborators}.

Lemma command_runs_save command filename s :
  command_word command = Some "/save" ->
  command_file command = Some filename ->
  handle_command command s = (Returns true, save filename s).
Proof.
  unfold command_word, command_file. intros Hw Hf.
  destruct (Str.split command) as [|w0 [|f extra]] eqn:Hs; try discriminate.
  injection Hw as Hw. injection Hf as ->.
  exact (handle_command_save command w0 filename extra s Hs Hw).
Qed.

Lemma command_runs_load command filename s :
  command_word command = Some "/load" ->
  command_file command = Some filename ->
  handle_command command s = (Returns true, load filename s).
Proof.
  unfold command_word, command_file. intros Hw Hf.
  destruct (Str.split command) as [|w0 [|f extra]] eqn:Hs; try discriminate.
  injection Hw as Hw. injection Hf as ->.
  exact (handle_command_load command w0 filename extra s Hs Hw).
Qed.

Lemma role_and_content_fields m :
  has_role_and_content m = true ->
  exists d r c,
    m = JObj d /\ dict_get "role" d = Some r /\ dict_get "content" d = Some c.
Proof.
  unfold has_role_and_content.
  destruct m as [ | | | | | d]; simpl; try discriminate.
  destruct (dict_get "role" d) as [r|] eqn:Er; [|discriminate].
  destruct (dict_get "content" d) as [c|] eqn:Ec; [|discriminate].
  intros _. now exists d, r, c.
Qed.

Lemma serializable_all : forall msgs,
  forallb has_role_and_content msgs = true ->
  serializable_messages msgs = inl (map stored msgs).
Proof.
  induction msgs as [|m msgs IH]; [reflexivity|]; intros H.
  simpl in H. apply andb_prop in H as [Hm Hrest].
  destruct (role_and_content_fields m Hm) as (d & r & c & -> & Hr & Hc).
  simpl. rewrite Hr, Hc, (IH Hrest). unfold stored. simpl.
  now rewrite Hr, Hc.
Qed.

Lemma serializable_missing : forall msgs,
  forallb has_role_and_content msgs = false ->
  exists e, serializable_messages msgs = inr e.
Proof.
  induction msgs as [|m msgs IH]; [discriminate|]; intros H.
  simpl in H. apply andb_false_iff in H.
  simpl. destruct (subscript m "role") as [r|e] eqn:Er; [|now exists e].
  destruct (subscript m "content") as [c|e] eqn:Ec; [|now exists e].
  assert (Hm : has_role_and_content m = true).
  { unfold has_role_and_content, subscript, field in *.
    destruct m as [ | | | | | d]; try discriminate.
    destruct (dict_get "role" d); [|discriminate].
    now destruct (dict_get "content" d). }
  destruct H as [H | H]; [congruence|].
  destruct (IH H) as (e & ->). now exists e.
Qed.

Lemma dumps_indent_not_empty k v : Json.dumps_indent k v <> "".
Proof.
  intros E.
  destruct (JsonFacts.encode_head (Some k) 0 v "") as (c & t & H & _).
  unfold Json.dumps_indent in E. rewrite E in H. discriminate H.
Qed.

(** X5: a [/save] to a file that can be written leaves the file empty
    exactly when some message of the transcript has no role or no content:
    the file is opened, and so emptied, before the messages are read, and
    the error is printed, in red, after [Error saving conversation:]. *)
Theorem save_empties_file_on_bad_message command filename s :
  command_word command = Some "/save" ->
  command_file command = Some filename ->
  writable (files s) filename = true ->
  (contents (files (snd (handle_command command s))) filename = Some ""
   <-> forallb has_role_and_content (messages (self s)) = false)
  /\ (forallb has_role_and_content (messages (self s)) = false ->
      exists e,
        stdout (snd (handle_command command s))
        = (stdout s
           ++ [(String "027" "[91mError saving conversation: " ++ e
                ++ String "027" "[0m" ++ String "010" "")%string])%list).
Proof.
  intros Hw Hf Hwr. rewrite (command_runs_save _ _ s Hw Hf). cbn [snd].
  unfold save. rewrite (writable_no_error _ _ Hwr).
  destruct (forallb has_role_and_content (messages (self s))) eqn:Hall.
  - rewrite (serializable_all _ Hall). cbn [files print with_files].
    rewrite contents_written. split; [|discriminate].
    split; [|discriminate]. intros H. injection H as H.
    now apply dumps_indent_not_empty in H.
  - destruct (serializable_missing _ Hall) as (e & ->).
    cbn [files print with_files stdout]. rewrite contents_written.
    split; [now split|]. intros _. exists e.
    unfold save_error, line. now rewrite !JsonFacts.append_assoc.
Qed.

Lemma load_error_failure e : load_error e = [load_failure e].
Proof.
  unfold load_error, load_failure, line. now rewrite !JsonFacts.append_assoc.
Qed.

(** X6: a [/load] of a name with no file to read, or of a file whose text
    is not JSON, leaves the interface, with its transcript, as it was, and
    prints the error, in red, after [Error loading conversation:]. *)
Theorem load_failure_keeps_transcript command filename s :
  command_word command = Some "/load" ->
  command_file command = Some filename ->
  contents (files s) filename = None
  \/ (exists text,
         contents (files s) filename = Some text
         /\ Json.loads text = Json.Invalid) ->
  self (snd (handle_command command s)) = self s
  /\ stdout (snd (handle_command command s))
     = (stdout s
        ++ [(String "027" "[91mError loading conversation: "
             ++ match contents (files s) filename with
                | None => read_error (files s) filename
                | Some text => decode_error text
                end
             ++ String "027" "[0m" ++ String "010" "")%string])%list.
Proof.
  intros Hw Hf Hfile. rewrite (command_runs_load _ _ s Hw Hf). cbn [snd].
  unfold load.
  destruct Hfile as [-> | (text & -> & ->)]; rewrite load_error_failure;
    split; reflexivity.
Qed.

Lemma load_messages_app : forall a b acc,
  load_messages (a ++ b) acc =
  match load_messages a acc with
  | LoadedAll acc' => load_messages b acc'
  | other => other
  end.
Proof.
  induction a as [|m a IH]; intros b acc; [reflexivity|].
  simpl. destruct (subscript m "content") as [c|e]; [|reflexivity].
  destruct (parse_content m c); [apply IH | reflexivity].
Qed.

Lemma plain_content m :
  kept_as_is m = true ->
  exists c, subscript m "content" = inl c /\ parse_content m c = Some m.
Proof.
  unfold kept_as_is, field, subscript.
  destruct m as [ | | | | | d]; try discriminate.
  destruct (dict_get "content" d) as [c|]; [|discriminate].
  intros H. exists c. split; [reflexivity|].
  destruct c as [ | | | t | | ]; try reflexivity.
  apply parse_content_kept. now apply negb_true_iff in H.
Qed.

Lemma load_messages_plain : forall items acc,
  forallb kept_as_is items = true ->
  load_messages items acc = LoadedAll (acc ++ items)%list.
Proof.
  induction items as [|m items IH]; intros acc H.
  - simpl. now rewrite List.app_nil_r.
  - simpl in H. apply andb_prop in H as [Hm Hrest].
    destruct (plain_content m Hm) as (c & Hc & Hp).
    rewrite (load_messages_cons _ _ _ _ Hc), Hp, (IH _ Hrest).
    now rewrite <- List.app_assoc.
Qed.

Lemma load_messages_bad bad rest acc :
  has_content bad = false ->
  exists e, load_messages (bad :: rest) acc = LoadRaised acc e.
Proof.
  unfold has_content, field. intros H. simpl.
  destruct bad as [ | | | | | d]; simpl; eauto.
  destruct (dict_get "content" d); [discriminate | eauto].
Qed.

(** X7: [/load] is not all or nothing.  When the file holds a list of the
    model whose items have content, which [/load] keeps as it is, up to an
    item that has none, the transcript is replaced by the items before that
    one, the items after it are not read, and the error is printed. *)
Theorem load_keeps_messages_before_bad command filename s text good bad rest :
  command_word command = Some "/load" ->
  command_file command = Some filename ->
  contents (files s) filename = Some text ->
  Json.loads text = Json.Value (JArr (good ++ bad :: rest)) ->
  forallb kept_as_is good = true ->
  has_content bad = false ->
  messages (self (snd (handle_command command s))) = good
  /\ exists e,
       stdout (snd (handle_command command s))
       = (stdout s
          ++ [(String "027" "[91mError loading conversation: " ++ e
               ++ String "027" "[0m" ++ String "010" "")%string])%list.
Proof.
  intros Hw Hf Hfile Hloads Hgood Hbad.
  rewrite (command_runs_load _ _ s Hw Hf). cbn [snd].
  rewrite (load_list _ _ _ _ Hfile Hloads).
  rewrite load_messages_app, (load_messages_plain good [] Hgood).
  cbn [app].
  destruct (load_messages_bad bad rest good Hbad) as (e & ->).
  rewrite load_error_failure. split; [reflexivity|]. now exists e.
Qed.

(** X8: when the file holds JSON that is not a list ([null], a boolean, a
    number, a string, a dictionary), [/load] leaves the transcript empty;
    this is so for the values of the model and for those outside it, a
    float and a string with a code point of 256 or more included. *)
Theorem load_of_non_list_clears command filename s text :
  command_word command = Some "/load" ->
  command_file command = Some filename ->
  contents (files s) filename = Some text ->
  (exists v, Json.loads text = Json.Value v /\ forall items, v <> JArr items)
  \/ (exists kind,
         Json.loads text = Json.Beyond kind /\ kind <> Json.AList) ->
  messages (self (snd (handle_command command s))) = []
  /\ beyond (snd (handle_command command s)) = beyond s.
Proof.
  intros Hw Hf Hfile Hloads.
  rewrite (command_runs_load _ _ s Hw Hf). cbn [snd].
  unfold load. rewrite Hfile.
  destruct Hloads as [(v & -> & Hv) | (kind & -> & Hkind)].
  - destruct v as [ | b | n | t | items | d]; try (split; reflexivity).
    + destruct t as [|c t]; split; reflexivity.
    + now elim (Hv items).
    + destruct d as [|[k x] d]; split; reflexivity.
  - destruct kind; try (split; reflexivity). now elim Hkind.
Qed.

(** X9: once the file is read as a value of the model, nothing of the
    previous transcript is left.  The file alone gives what [/load] leaves:
    either a transcript, the same in whatever session the file is loaded, or
    a message with a value outside the model, in every session. *)
Theorem load_replaces_transcript text v :
  Json.loads text = Json.Value v ->
  exists outcome : option (list json),
    forall command filename s,
      command_word command = Some "/load" ->
      command_file command = Some filename ->
      contents (files s) filename = Some text ->
      match outcome with
      | Some msgs =>
          messages (self (snd (handle_command command s))) = msgs
          /\ beyond (snd (handle_command command s)) = beyond s
      | None => beyond (snd (handle_command command s)) = true
      end.
Proof.
  intros Hloads.
  exists (match iterate v with
          | inr _ => Some []
          | inl items =>
              match load_messages items [] with
              | LoadedAll msgs => Some msgs
              | LoadRaised msgs _ => Some msgs
              | LoadedBeyond => None
              end
          end).
  intros command filename s Hw Hf Hfile.
  rewrite (command_runs_load _ _ s Hw Hf). cbn [snd].
  unfold load. rewrite Hfile, Hloads.
  destruct (iterate v) as [items|e]; [|now split].
  destruct (load_messages items []) as [msgs | msgs e | ];
    [now split | now split | reflexivity].
Qed.

End FileExtras.

Section ReloadExtras.

Context {C : Collaborators}.

Lemma storable_fields m :
  storable m = true ->
  exists d r c,
    m = JObj d /\ dict_get "role" d = Some r /\ dict_get "content" d = Some c
    /\ Json.well_formed r = true /\ Json.well_formed c = true
    /\ (forall t, c = JStr t -> Str.startswith t "[" = false).
Proof.
  unfold storable. destruct m as [ | | | | | d]; cbn [field]; try discriminate.
  destruct (dict_get "role" d) as [r|] eqn:Er; [|discriminate].
  destruct (dict_get "content" d) as [c|] eqn:Ec; [|discriminate].
  intros H. exists d, r, c. split; [reflexivity|]. split; [exact Er|].
  split; [exact Ec|]. clear Ec.
  destruct c; apply andb_prop in H as [Hr Hc];
    (split; [exact Hr|]); (split; [exact Hc || reflexivity |]);
    intros t Ht; try discriminate.
  injection Ht as ->. now apply negb_true_iff in Hc.
Qed.

Lemma storable_role_and_content : forall msgs,
  forallb storable msgs = true ->
  forallb has_role_and_content msgs = true.
Proof.
  induction msgs as [|m msgs IH]; [reflexivity|]; intros H.
  simpl in H. apply andb_prop in H as [Hm Hrest].
  simpl. rewrite (IH Hrest), andb_true_r.
  destruct (storable_fields m Hm) as (d & r & c & -> & Hr & Hc & _).
  unfold has_role_and_content. simpl. now rewrite Hr, Hc.
Qed.

Lemma dumps_not_bracket c :
  (forall t, c <> JStr t) -> (forall items, c <> JArr items) ->
  Str.startswith (Json.dumps c) "[" = false.
Proof.
  intros Hs Ha. destruct c as [ | [] | n | t | items | [|kv d]];
    try reflexivity; try (now elim (Hs t)); try (now elim (Ha items)).
  destruct (JsonFacts.encode_int_head n) as (ch & t & E & Hch).
    apply JsonFacts.starts_number_dispatch in Hch as (_ & Hb & _).
    unfold Json.dumps. change (Json.encode None 0 (JNum n)) with (Json.encode_int n).
    rewrite E.
    change (Str.startswith (String ch t) "[")
      with (Ascii.eqb "[" ch && Str.startswith t "").
  now rewrite Ascii.eqb_sym, Hb.
Qed.

Lemma load_messages_text r t rest acc :
  load_messages (JObj [("role", r); ("content", JStr t)] :: rest) acc
  = match (if Str.startswith t "["
           then match Json.loads t with
                | Json.Value v => Some (JObj [("role", r); ("content", v)])
                | Json.Invalid => Some (JObj [("role", r); ("content", JStr t)])
                | Json.Beyond _ => None
                end
           else Some (JObj [("role", r); ("content", JStr t)])) with
    | Some msg' => load_messages rest (acc ++ [msg'])%list
    | None => LoadedBeyond
    end.
Proof.
  rewrite (load_messages_cons _ _ _ (JStr t)) by reflexivity.
  rewrite parse_content_text.
  destruct (Str.startswith t "["); [|reflexivity].
  destruct (Json.loads t); reflexivity.
Qed.

Lemma load_stored_storable m rest acc :
  storable m = true ->
  load_messages (stored m :: rest) acc
  = load_messages rest (acc ++ [reloaded m])%list.
Proof.
  intros Hm.
  destruct (storable_fields m Hm) as (d & r & c & -> & Hr & Hc & _ & Hwf & Hstr).
  unfold stored, reloaded. simpl field. rewrite Hr, Hc.
  destruct c as [ | b | n | t | items | members];
    rewrite load_messages_text;
    try (rewrite dumps_not_bracket; [reflexivity | discriminate | discriminate]);
    try (rewrite (Hstr _ eq_refl); reflexivity).
  now rewrite dumps_array_bracket, (JsonFacts.loads_dumps _ Hwf).
Qed.

Lemma load_messages_stored_storable : forall msgs acc,
  forallb storable msgs = true ->
  load_messages (map stored msgs) acc = LoadedAll (acc ++ map reloaded msgs)%list.
Proof.
  induction msgs as [|m msgs IH]; intros acc H.
  - simpl. now rewrite List.app_nil_r.
  - simpl in H. apply andb_prop in H as [Hm Hrest].
    change (map stored (m :: msgs)) with (stored m :: map stored msgs).
    rewrite (load_stored_storable m _ acc Hm), (IH _ Hrest), <- List.app_assoc.
    reflexivity.
Qed.

Lemma stored_storable_well_formed : forall msgs,
  forallb storable msgs = true ->
  Json.well_formed (JArr (map stored msgs)) = true.
Proof.
  induction msgs as [|m msgs IH]; [reflexivity|]; intros H.
  simpl in H. apply andb_prop in H as [Hm Hrest].
  change (Json.well_formed (JArr (map stored (m :: msgs))))
    with (Json.well_formed (stored m)
          && Json.well_formed (JArr (map stored msgs))).
  rewrite (IH Hrest), andb_true_r.
  destruct (storable_fields m Hm) as (d & r & c & -> & Hr & Hc & Hwf & _).
  unfold stored. simpl. rewrite Hr, Hc. simpl. rewrite Hwf.
  now destruct c.
Qed.

Lemma save_then_load_messages filename s :
  writable (files s) filename = true ->
  forallb storable (messages (self s)) = true ->
  messages (self (load filename (save filename s)))
  = map reloaded (messages (self s))
  /\ files (load filename (save filename s))
     = write_file (files s) filename
         (Json.dumps_indent 2 (JArr (map stored (messages (self s))))).
Proof.
  intros Hw Hst.
  rewrite (save_written _ _ _ Hw
             (serializable_all _ (storable_role_and_content _ Hst))).
  rewrite (load_list filename _
             (Json.dumps_indent 2 (JArr (map stored (messages (self s)))))
             (map stored (messages (self s)))).
  - rewrite (load_messages_stored_storable _ [] Hst). split; reflexivity.
  - apply contents_written.
  - apply JsonFacts.loads_dumps_indent, stored_storable_well_formed, Hst.
Qed.

Lemma storable_record r c :
  storable (JObj [("role", r); ("content", c)])
  = match c with
    | JStr t => Json.well_formed r && negb (Str.startswith t "[")
    | _ => Json.well_formed r && Json.well_formed c
    end.
Proof. reflexivity. Qed.

Lemma reloaded_storable m : storable m = true -> storable (reloaded m) = true.
Proof.
  intros Hm.
  destruct (storable_fields m Hm) as (d & r & c & -> & Hr & Hc & Hwr & Hwf & Hstr).
  unfold reloaded. cbn [field]. rewrite Hr, Hc, storable_record, Hwr.
  destruct c as [ | b | n | t | items | members]; cbn [andb];
    try (rewrite dumps_not_bracket; [reflexivity | discriminate | discriminate]);
    try (rewrite (Hstr _ eq_refl); reflexivity);
    try exact Hwf.
Qed.

Lemma stored_reloaded m : storable m = true -> stored (reloaded m) = stored m.
Proof.
  intros Hm.
  destruct (storable_fields m Hm) as (d & r & c & -> & Hr & Hc & _).
  unfold reloaded, stored. simpl field. rewrite Hr, Hc. simpl.
  now destruct c.
Qed.

(** X10: what [/save] and then [/load] make of a transcript whose messages
    have a role and content (a string content not starting with a bracket).
    Every message comes back with its role, and with its content when that
    is a string or a list; content of any other kind, a dictionary say, is
    not restored: it comes back as the string that holds its JSON text. *)
Theorem save_then_load_reloads save_cmd load_cmd filename s :
  command_word save_cmd = Some "/save" ->
  command_file save_cmd = Some filename ->
  command_word load_cmd = Some "/load" ->
  command_file load_cmd = Some filename ->
  writable (files s) filename = true ->
  forallb storable (messages (self s)) = true ->
  messages (self (snd (handle_command load_cmd
                         (snd (handle_command save_cmd s)))))
  = map reloaded (messages (self s)).
Proof.
  intros Hsw Hsf Hlw Hlf Hw Hst.
  rewrite (command_runs_save _ _ s Hsw Hsf).
  rewrite (command_runs_load _ _ _ Hlw Hlf). cbn [snd].
  apply save_then_load_messages; assumption.
Qed.

(** X11: saving what was loaded writes the same file again: after [/save],
    [/load] and [/save] of the same file, its text is what the first [/save]
    wrote. *)
Theorem save_load_save_same_file save_cmd load_cmd filename s :
  command_word save_cmd = Some "/save" ->
  command_file save_cmd = Some filename ->
  command_word load_cmd = Some "/load" ->
  command_file load_cmd = Some filename ->
  writable (files s) filename = true ->
  forallb storable (messages (self s)) = true ->
  contents
    (files (snd (handle_command save_cmd
                   (snd (handle_command load_cmd
                           (snd (handle_command save_cmd s)))))))
    filename
  = contents (files (snd (handle_command save_cmd s))) filename.
Proof.
  intros Hsw Hsf Hlw Hlf Hw Hst.
  rewrite !(command_runs_save _ _ _ Hsw Hsf).
  rewrite (command_runs_load _ _ _ Hlw Hlf). cbn [snd].
  destruct (save_then_load_messages filename s Hw Hst) as (Hmsgs & Hfiles).
  set (s1 := load filename (save filename s)) in *.
  assert (Hst1 : forallb storable (messages (self s1)) = true).
  { rewrite Hmsgs. rewrite forallb_forall in Hst |- *.
    intros m' Hin. apply in_map_iff in Hin as (m & <- & Hin).
    apply reloaded_storable, Hst, Hin. }
  assert (Hw1 : writable (files s1) filename = true).
  { rewrite Hfiles. exact Hw. }
  rewrite (save_written _ _ _ Hw1
             (serializable_all _ (storable_role_and_content _ Hst1))).
  rewrite (save_written _ _ _ Hw
             (serializable_all _ (storable_role_and_content _ Hst))).
  cbn [files print with_files]. rewrite !contents_written.
  assert (Hmap : map stored (map reloaded (messages (self s)))
                 = map stored (messages (self s))).
  { rewrite map_map. apply map_ext_in. intros m Hin.
    rewrite forallb_forall in Hst. apply stored_reloaded, Hst, Hin. }
  now rewrite Hmsgs, Hmap.
Qed.

End ReloadExtras.

(** ** More on the turn loop *)

Section LoopExtras.

Context {C : Collaborators}.

Lemma extends_refl s : extends s s.
Proof.
  unfold extends.
  repeat split;
    first [ reflexivity
          | exists []; split; [now rewrite List.app_nil_r | constructor]
          | exists []; now rewrite List.app_nil_r ].
Qed.

Lemma extends_trans s1 s2 s3 : extends s1 s2 -> extends s2 s3 -> extends s1 s3.
Proof.
  intros ((a1 & Hm1 & Hf1) & Hk1 & Hmo1 & Ht1 & Hs1 & Hfi1 & (o1 & Ho1))
         ((a2 & Hm2 & Hf2) & Hk2 & Hmo2 & Ht2 & Hs2 & Hfi2 & (o2 & Ho2)).
  repeat split; try congruence.
  - exists (a1 ++ a2)%list. split.
    + now rewrite Hm2, Hm1, List.app_assoc.
    + apply Forall_app. now split.
  - exists (o1 ++ o2)%list. now rewrite Ho2, Ho1, List.app_assoc.
Qed.

Lemma answers_are_user results :
  Forall (fun m => has_role "user" m = true \/ has_role "assistant" m = true)
         (map answer results).
Proof.
  induction results as [|r rs IH]; constructor; [now left | exact IH].
Qed.

Lemma sampling_turn_extends s : extends s (snd (sampling_turn s)).
Proof.
  destruct (create (build_request (self s)) (world s)) as [outcome w] eqn:Hc.
  assert (Hfailed : forall e,
             outcome = CallRaises e
             \/ (exists chunks, outcome = Streams chunks (Some e)) ->
             extends s (snd (sampling_turn s))).
  { intros e Hfail.
    destruct (sampling_turn_failed s w outcome e Hc Hfail)
      as (_ & Hself & Hfiles & _ & (shown & Hout)).
    unfold extends. rewrite Hself, Hfiles. repeat split.
    - exists []. split; [now rewrite List.app_nil_r | constructor].
    - eauto. }
  destruct outcome as [e | chunks [e|]].
  - apply (Hfailed e). now left.
  - apply (Hfailed e). right. now exists chunks.
  - rewrite (sampling_turn_completed s w chunks Hc). cbn [snd].
    unfold extends, completed.
    cbn [self messages set_messages api_key model tool_version system files
         stdout].
    repeat split.
    + eexists. split; [reflexivity|].
      apply Forall_app. split; [apply answers_are_user|].
      destruct (raised (dispatch (tool_uses (response_content_blocks chunks)) w));
        [constructor | constructor; [now right | constructor]].
    + eauto.
Qed.

Lemma sampling_loop_extends : forall fuel s,
  extends s (snd (sampling_loop fuel s)).
Proof.
  induction fuel as [|fuel IH]; intros s; [apply extends_refl|].
  rewrite sampling_loop_S.
  pose proof (sampling_turn_extends s) as Hturn.
  destruct (sampling_turn s) as [[ | | e] s']; cbn [snd] in *;
    [eapply extends_trans; [exact Hturn | apply IH] | exact Hturn..].
Qed.

(** X12: [sampling_loop] only appends to the transcript, and what it
    appends are user and assistant messages; it changes neither the key, the
    model, the tool version or the system prompt of the interface nor any
    file; what it prints is added to what was printed. *)
Theorem sampling_loop_only_appends fuel s :
  (exists appended,
      messages (self (snd (sampling_loop fuel s)))
      = (messages (self s) ++ appended)%list
      /\ Forall (fun m => has_role "user" m = true
                          \/ has_role "assistant" m = true) appended)
  /\ api_key (self (snd (sampling_loop fuel s))) = api_key (self s)
  /\ model (self (snd (sampling_loop fuel s))) = model (self s)
  /\ tool_version (self (snd (sampling_loop fuel s))) = tool_version (self s)
  /\ system (self (snd (sampling_loop fuel s))) = system (self s)
  /\ files (snd (sampling_loop fuel s)) = files s
  /\ exists out, stdout (snd (sampling_loop fuel s)) = (stdout s ++ out)%list.
Proof. exact (sampling_loop_extends fuel s). Qed.

Lemma build_request_well_formed s s0 :
  extends s0 s -> well_formed_request (self s0) (build_request (self s)).
Proof.
  intros ((a & Hm & _) & _ & Hmo & _ & Hs & _).
  unfold well_formed_request, build_request. cbn. repeat split.
  - exact Hmo.
  - exists (if truthy beta_flag then [text_of beta_flag] else []).
    split; [reflexivity|]. destruct (truthy beta_flag); simpl; lia.
  - exists a. exact Hm.
  - eexists. split; [reflexivity|]. intros k Hk.
    rewrite dict_get_set_other by exact Hk. now rewrite Hs.
Qed.

Lemma requests_of_loop : forall fuel s s0,
  extends s0 s ->
  exists new,
    sent (snd (sampling_loop fuel s)) = (sent s ++ new)%list
    /\ Forall (well_formed_request (self s0)) new
    /\ length new <= fuel.
Proof.
  induction fuel as [|fuel IH]; intros s s0 Hext.
  - exists []. split; [now rewrite List.app_nil_r | split; [constructor | simpl; lia]].
  - rewrite sampling_loop_S.
    pose proof (sampling_turn_sent s) as Hsent.
    pose proof (sampling_turn_extends s) as Hturn.
    pose proof (build_request_well_formed s s0 Hext) as Hreq.
    destruct (sampling_turn s) as [[ | | e] s']; cbn [snd] in *.
    + destruct (IH s' s0 (extends_trans _ _ _ Hext Hturn))
        as (new & Hnew & HF & Hlen).
      exists (build_request (self s) :: new). split; [|split].
      * now rewrite Hnew, Hsent, <- List.app_assoc.
      * now constructor.
      * simpl. lia.
    + exists [build_request (self s)].
      split; [exact Hsent | split; [now constructor | simpl; lia]].
    + exists [build_request (self s)].
      split; [exact Hsent | split; [now constructor | simpl; lia]].
Qed.

(** X13: every request that [sampling_loop] sends asks for a stream of at
    most [DEFAULT_MAX_TOKENS] tokens from the model of the interface, with
    the tools of the collection and with the prompt-caching flag last among
    at most two beta flags; its messages start with the transcript the loop
    was called with; its system block is the interface's with
    [cache_control] added.  A run of the loop sends at most one request per
    turn. *)
Theorem requests_carry_transcript fuel s :
  exists new,
    sent (snd (sampling_loop fuel s)) = (sent s ++ new)%list
    /\ Forall (well_formed_request (self s)) new
    /\ length new <= fuel.
Proof. exact (requests_of_loop fuel s s (extends_refl s)). Qed.

(** X14: where a completed turn puts its messages when no tool raises:
    first the answers to the tool uses, in the order of the tool uses, and
    last the assistant message with the tool uses they answer. *)
Theorem assistant_message_comes_last s w chunks :
  create (build_request (self s)) (world s) = (Streams chunks None, w) ->
  raised (dispatch (tool_uses (response_content_blocks chunks)) w) = None ->
  messages (self (snd (sampling_turn s)))
  = ((messages (self s)
      ++ map answer
           (answered
              (dispatch (tool_uses (response_content_blocks chunks)) w)))
     ++ [JObj [("role", JStr "assistant");
               ("content",
                JArr (map block_param
                        (filter recorded (response_content_blocks chunks))))]])%list
  /\ last (messages (self (snd (sampling_turn s)))) JNull
     = JObj [("role", JStr "assistant");
             ("content",
              JArr (map block_param
                      (filter recorded (response_content_blocks chunks))))].
Proof.
  intros Hcreate Hreturn.
  destruct (completed_turn s w chunks Hcreate Hreturn) as [-> _].
  rewrite List.app_assoc. split; [reflexivity|].
  apply last_last.
Qed.

Lemma written_app a b : written (a ++ b) = written a ++ written b.
Proof.
  induction a as [|x a IH]; [reflexivity|].
  simpl. unfold written in *. simpl. now rewrite IH, JsonFacts.append_assoc.
Qed.

Lemma echoed_text_is_recorded : forall blocks,
  written (receive_blocks blocks)
  = params_text (map block_param (filter recorded blocks)).
Proof.
  induction blocks as [|b blocks IH]; [reflexivity|].
  destruct b as [[t|] | id name input | t].
  - change (receive_blocks (TextBlock (Some t) :: blocks))
      with (t :: receive_blocks blocks).
    change (written (t :: receive_blocks blocks))
      with (t ++ written (receive_blocks blocks)).
    rewrite IH. cbn [filter recorded truthy].
    destruct (String.eqb_spec t "") as [-> | Hne]; [reflexivity|].
    reflexivity.
  - exact IH.
  - exact IH.
  - exact IH.
Qed.

(** X15: what is shown is what is recorded.  In a completed turn whose
    tools all return, the text written while the stream is read, joined, is
    the text of the text blocks of the assistant message, joined; what the
    tools print comes after it.  Thinking blocks are neither shown nor
    recorded. *)
Theorem echoed_text_matches_assistant_message s w chunks :
  create (build_request (self s)) (world s) = (Streams chunks None, w) ->
  raised (dispatch (tool_uses (response_content_blocks chunks)) w) = None ->
  exists shown,
    stdout (snd (sampling_turn s))
    = (stdout s ++ shown
       ++ flat_map (fun ir => print_tool_result (snd ir))
            (answered
               (dispatch (tool_uses (response_content_blocks chunks)) w)))%list
    /\ written shown
       = params_text
           (map block_param
              (filter recorded (response_content_blocks chunks)))
    /\ field "content" (last (messages (self (snd (sampling_turn s)))) JNull)
       = Some (JArr (map block_param
                       (filter recorded (response_content_blocks chunks)))).
Proof.
  intros Hcreate Hreturn.
  destruct (completed_turn s w chunks Hcreate Hreturn) as [Hmsgs _].
  rewrite Hmsgs, List.app_assoc, last_last.
  rewrite (sampling_turn_completed s w chunks Hcreate). cbn [snd].
  exists (receive_blocks (response_content_blocks chunks)). split; [|split].
  - unfold completed. cbn [stdout]. rewrite Hreturn.
    now rewrite List.app_nil_r.
  - apply echoed_text_is_recorded.
  - reflexivity.
Qed.

Lemma sampling_turn_world s w outcome :
  create (build_request (self s)) (world s) = (outcome, w) ->
  world (snd (sampling_turn s))
  = match outcome with
    | Streams chunks None =>
        world_after (dispatch (tool_uses (response_content_blocks chunks)) w)
    | _ => w
    end.
Proof.
  intros Hc. destruct outcome as [e | chunks [e|]].
  - unfold sampling_turn. now rewrite Hc.
  - unfold sampling_turn. now rewrite Hc.
  - now rewrite (sampling_turn_completed s w chunks Hc).
Qed.

(** X16: tools run only once the whole stream is read, and only up to the
    first that raises.  A turn whose call or stream raises runs no tool,
    whatever tool uses the stream had already delivered: the collaborators
    are left as the call left them and the transcript is as it was.  A turn
    whose stream was read to the end runs the tools of its tool uses, in
    order, until one raises: the answers to the tools that returned are in
    the transcript, the tools after the one that raised have not run, and
    then there is no assistant message and the loop returns. *)
Theorem broken_stream_runs_no_tool s w outcome :
  create (build_request (self s)) (world s) = (outcome, w) ->
  ((forall chunks, outcome <> Streams chunks None) ->
   world (snd (sampling_turn s)) = w
   /\ messages (self (snd (sampling_turn s))) = messages (self s))
  /\ (forall chunks, outcome = Streams chunks None ->
      world (snd (sampling_turn s))
      = world_after (dispatch (tool_uses (response_content_blocks chunks)) w)
      /\ forall e,
           raised (dispatch (tool_uses (response_content_blocks chunks)) w)
           = Some e ->
           messages (self (snd (sampling_turn s)))
           = (messages (self s)
              ++ map answer
                   (answered
                      (dispatch (tool_uses (response_content_blocks chunks))
                         w)))%list
           /\ (forall fuel,
                 fst (sampling_loop (S fuel) s) = ReturnedAfter e)).
Proof.
  intros Hc. rewrite (sampling_turn_world s w outcome Hc). split.
  - intros Hbroken. destruct outcome as [e | chunks [e|]].
    + split; [reflexivity|].
      now destruct (sampling_turn_failed s w _ e Hc (or_introl eq_refl))
        as (_ & -> & _).
    + split; [reflexivity|].
      now destruct (sampling_turn_failed s w _ e Hc
                      (or_intror (ex_intro _ chunks eq_refl)))
        as (_ & -> & _).
    + now elim (Hbroken chunks).
  - intros chunks ->. split; [reflexivity|]. intros e Hraise.
    pose proof (sampling_turn_completed s w chunks Hc) as Hturn.
    rewrite Hraise in Hturn. split.
    + rewrite Hturn. unfold completed. cbn [snd self messages set_messages].
      now rewrite Hraise, List.app_nil_r.
    + intros fuel. rewrite sampling_loop_S, Hturn. reflexivity.
Qed.

Lemma dispatch_returns : forall uses w,
  (forall name input w0,
      exists result w1, tool_run name input w0 = (ToolReturns result, w1)) ->
  raised (dispatch uses w) = None.
Proof.
  induction uses as [|[[id name] input] uses IH]; intros w Htools;
    [reflexivity|].
  simpl. destruct (Htools name input w) as (result & w1 & ->).
  simpl. now apply IH.
Qed.

(** X17: there is no bound on the turns.  With a remote service whose every
    response is a stream that ends and holds a tool use, and with tools that
    always return, the loop goes on: it has not returned after any number of
    turns, and it has sent one request per turn. *)
Theorem loop_goes_on_while_tools_are_used :
  (forall request w,
      exists chunks w',
        create request w = (Streams chunks None, w')
        /\ tool_uses (response_content_blocks chunks) <> []) ->
  (forall name input w,
      exists result w', tool_run name input w = (ToolReturns result, w')) ->
  forall fuel s,
    fst (sampling_loop fuel s) = Running
    /\ length (sent (snd (sampling_loop fuel s))) = length (sent s) + fuel.
Proof.
  intros Hservice Htools. induction fuel as [|fuel IH]; intros s.
  - simpl. split; [reflexivity | lia].
  - rewrite sampling_loop_S.
    destruct (Hservice (build_request (self s)) (world s))
      as (chunks & w & Hcreate & Huses).
    pose proof (sampling_turn_sent s) as Hsent.
    rewrite (sampling_turn_completed s w chunks Hcreate) in Hsent |- *.
    rewrite (dispatch_returns _ w Htools).
    destruct (tool_uses (response_content_blocks chunks)) as [|u us] eqn:Hu;
      [contradiction|].
    cbn [snd] in Hsent.
    destruct (IH (completed s w chunks)) as (Hrun & Hlen).
    split; [exact Hrun|]. rewrite Hlen, Hsent, length_app. simpl. lia.
Qed.

End LoopExtras.

(** ** More on [run] *)

Section RunExtras.

Context {C : Collaborators}.

Lemma run_loop_command fuel l rest s :
  Str.startswith (Str.strip l) "/" = true ->
  run_loop fuel (l :: rest) s
  = match handle_command (Str.strip l) (print [you] s) with
    | (Returns false, s1) => (Exited, s1)
    | (Returns true, s1) => run_loop fuel rest s1
    | (Raises e, s1) => (Crashed e, print (run_error e) s1)
    end.
Proof.
  intros Hcmd.
  change (run_loop fuel (l :: rest) s)
    with (if Str.startswith (Str.strip l) "/"
          then match handle_command (Str.strip l) (print [you] s) with
               | (Returns false, s1) => (Exited, s1)
               | (Returns true, s1) => run_loop fuel rest s1
               | (Raises e', s1) => (Crashed e', print (run_error e') s1)
               end
          else match sampling_loop fuel (prompted s l) with
               | (Running, s3) => (Blocked, s3)
               | (_, s3) => run_loop fuel rest (print [line Str.nl] s3)
               end).
  now rewrite Hcmd.
Qed.

Lemma command_has_word l :
  Str.startswith (Str.strip l) "/" = true ->
  command_word (Str.strip l) <> None.
Proof.
  intros H. apply startswith_slash in H as (rest & ->).
  unfold command_word.
  pose proof (split_head "/" rest eq_refl) as Hs.
  now destruct (Str.split (String "/" rest)).
Qed.

(** X18: how [run] ends.  It is left by an exception only when the input is
    over (no command that [run] passes on raises); it is left by [/exit]
    only when some line of the input has [/exit] as its command word; and it
    stays in the loop only for a line that is not a command. *)
Theorem run_ends_on_exit_or_end_of_input fuel : forall inputs s,
  match fst (run_loop fuel inputs s) with
  | Crashed e => e = "EOF when reading a line"
  | Exited =>
      exists l, In l inputs /\ command_word (Str.strip l) = Some "/exit"
  | Blocked =>
      exists l, In l inputs /\ Str.startswith (Str.strip l) "/" = false
  end.
Proof.
  induction inputs as [|l rest IH]; intros s; [reflexivity|].
  destruct (Str.startswith (Str.strip l) "/") eqn:Hcmd.
  - rewrite (run_loop_command _ _ _ _ Hcmd).
    destruct (handle_command_end (Str.strip l) (print [you] s))
      as (_ & Hexit & _).
    pose proof (handle_command_raises (Str.strip l) (print [you] s)) as Hraise.
    destruct (handle_command (Str.strip l) (print [you] s)) as [[[|]|e] s1];
      cbn [fst] in *.
    + specialize (IH s1). destruct (fst (run_loop fuel rest s1)); auto;
        destruct IH as (l' & Hin & Hl'); exists l'; split; auto; now right.
    + exists l. split; [now left | now apply Hexit].
    + exfalso. apply (command_has_word l Hcmd). now apply (Hraise e).
  - rewrite (run_loop_input _ _ _ _ Hcmd).
    destruct (sampling_loop fuel (prompted s l)) as [[ | e | ] s3];
      cbn [fst].
    + specialize (IH (print [line Str.nl] s3)).
      destruct (fst (run_loop fuel rest (print [line Str.nl] s3))); auto;
        destruct IH as (l' & Hin & Hl'); exists l'; split; auto; now right.
    + specialize (IH (print [line Str.nl] s3)).
      destruct (fst (run_loop fuel rest (print [line Str.nl] s3))); auto;
        destruct IH as (l' & Hin & Hl'); exists l'; split; auto; now right.
    + exists l. split; [now left | exact Hcmd].
Qed.

Lemma handle_command_exit command s :
  command_word command = Some "/exit" ->
  handle_command command s = (Returns false, print [line "Exiting..."] s).
Proof.
  unfold command_word, handle_command.
  destruct (Str.split command) as [|w0 a0]; [discriminate|].
  intros H. injection H as ->. reflexivity.
Qed.

Lemma lower_char_slash c : Str.lower_char c = "/"%char -> c = "/"%char.
Proof.
  destruct c as [[] [] [] [] [] [] [] []]; cbv; intros H;
    first [reflexivity | discriminate H].
Qed.

Lemma split_from_first_char : forall s word c w first rest,
  word = String c w ->
  Str.split_from word s = first :: rest ->
  exists f, first = String c f.
Proof.
  induction s as [|d s IH]; intros word c w first rest -> Hs; simpl in Hs.
  - injection Hs as <- _. eauto.
  - destruct (Str.is_space d).
    + injection Hs as <- _. eauto.
    + exact (IH _ c (w ++ String d "") first rest eq_refl Hs).
Qed.

Lemma lstrip_head s :
  Str.lstrip s = "" \/ exists c r, Str.lstrip s = String c r
                                   /\ Str.is_space c = false.
Proof.
  induction s as [|c s IH]; simpl; [now left|].
  destruct (Str.is_space c) eqn:Hc; [exact IH|]. right. eauto.
Qed.

Lemma rstrip_head c r :
  Str.is_space c = false -> exists r', Str.rstrip (String c r) = String c r'.
Proof.
  intros Hc. simpl. destruct (Str.rstrip r); [rewrite Hc|]; eauto.
Qed.

Lemma command_word_slash l w :
  command_word (Str.strip l) = Some w ->
  Str.startswith w "/" = true ->
  Str.startswith (Str.strip l) "/" = true.
Proof.
  unfold command_word, Str.strip. intros Hw Hslash.
  destruct (lstrip_head l) as [E | (c & r & E & Hc)]; rewrite E in *;
    [simpl in Hw; discriminate Hw|].
  destruct (rstrip_head c r Hc) as (r' & Hr). rewrite Hr in *.
  unfold Str.split in Hw.
  change (Str.split_from "" (String c r'))
    with (if Str.is_space c
          then Str.split_from "" r'
          else Str.split_from (String c "") r') in Hw.
  rewrite Hc in Hw.
  destruct (Str.split_from (String c "") r') as [|first rest] eqn:Hs;
    [discriminate|].
  injection Hw as <-.
  destruct (split_from_first_char _ _ c "" first rest eq_refl Hs) as (f & ->).
  apply startswith_slash in Hslash as (t & Ht).
  injection Ht as Hch _. apply lower_char_slash in Hch. subst c.
  reflexivity.
Qed.

(** X19: [/exit] ends the session at once, in any case of letters and with
    anything after it: the lines that follow are not read, no request is
    sent, and the transcript and the files are as they were. *)
Theorem exit_ends_run fuel l rest s :
  command_word (Str.strip l) = Some "/exit" ->
  run_loop fuel (l :: rest) s
  = (Exited, print [line "Exiting..."] (print [you] s)).
Proof.
  intros Hexit.
  rewrite (run_loop_command _ _ _ _ (command_word_slash l _ Hexit eq_refl)).
  now rewrite (handle_command_exit _ _ Hexit).
Qed.

Lemma first_request fuel s :
  exists more,
    sent (snd (sampling_loop (S fuel) s))
    = (sent s ++ build_request (self s) :: more)%list.
Proof.
  rewrite sampling_loop_S. pose proof (sampling_turn_sent s) as Hsent.
  destruct (sampling_turn s) as [[ | | e] s']; cbn [snd] in *.
  - destruct (requests_of_loop fuel s' s' (extends_refl s'))
      as (new & Hnew & _).
    exists new. now rewrite Hnew, Hsent, <- List.app_assoc.
  - now exists [].
  - now exists [].
Qed.

(** X20: an empty line is not skipped.  A line of white space only is
    stripped to the empty string, appended to the transcript as a user
    message with empty text, and sent: the loop is entered and its first
    request carries that message. *)
Theorem blank_line_is_sent fuel l rest s :
  forallb Str.is_space (list_ascii_of_string l) = true ->
  Str.strip l = ""
  /\ messages (self (prompted s l))
     = (messages (self s) ++ [user_message ""])%list
  /\ run_loop (S fuel) (l :: rest) s
     = match sampling_loop (S fuel) (prompted s l) with
       | (Running, s3) => (Blocked, s3)
       | (_, s3) => run_loop (S fuel) rest (print [line Str.nl] s3)
       end
  /\ exists more,
       sent (snd (sampling_loop (S fuel) (prompted s l)))
       = (sent s ++ build_request (self (prompted s l)) :: more)%list
       /\ req_messages (build_request (self (prompted s l)))
          = (messages (self s) ++ [user_message ""])%list.
Proof.
  intros Hblank. pose proof (strip_spaces l Hblank) as Hstrip.
  assert (Hmsgs : messages (self (prompted s l))
                  = (messages (self s) ++ [user_message ""])%list).
  { unfold prompted. cbn. now rewrite Hstrip. }
  split; [exact Hstrip|]. split; [exact Hmsgs|]. split.
  - apply run_loop_input. now rewrite Hstrip.
  - destruct (first_request fuel (prompted s l)) as (more & Hmore).
    exists more. split; [exact Hmore | exact Hmsgs].
Qed.

(** X21: a failed turn does not take the user's message back.  When the
    first call for a line fails, the message stays in the transcript, and
    the request for the next line carries both messages, two user messages
    in a row. *)
Theorem failed_turn_keeps_user_message fuel l1 l2 rest s w outcome e :
  Str.startswith (Str.strip l1) "/" = false ->
  Str.startswith (Str.strip l2) "/" = false ->
  create (build_request (self (prompted s l1))) (world s) = (outcome, w) ->
  outcome = CallRaises e \/ (exists chunks, outcome = Streams chunks (Some e)) ->
  exists s1,
    run_loop (S fuel) (l1 :: l2 :: rest) s
    = match sampling_loop (S fuel) (prompted s1 l2) with
      | (Running, s3) => (Blocked, s3)
      | (_, s3) => run_loop (S fuel) rest (print [line Str.nl] s3)
      end
    /\ messages (self s1)
       = (messages (self s) ++ [user_message (Str.strip l1)])%list
    /\ req_messages (build_request (self (prompted s1 l2)))
       = (messages (self s)
          ++ [user_message (Str.strip l1); user_message (Str.strip l2)])%list.
Proof.
  intros Hl1 Hl2 Hcreate Hfail.
  destruct (sampling_turn_failed (prompted s l1) w outcome e Hcreate Hfail)
    as (Hend & Hself & _).
  exists (print [line Str.nl] (snd (sampling_turn (prompted s l1)))).
  assert (Hmsgs :
    messages (self (print [line Str.nl] (snd (sampling_turn (prompted s l1)))))
    = (messages (self s) ++ [user_message (Str.strip l1)])%list).
  { cbn [print self]. now rewrite Hself. }
  split; [|split].
  - rewrite (run_loop_input _ _ _ _ Hl1), sampling_loop_S.
    destruct (sampling_turn (prompted s l1)) as [t s']. cbn [fst snd] in *.
    subst t. now rewrite (run_loop_input _ _ _ _ Hl2).
  - exact Hmsgs.
  - unfold prompted at 1. cbn. cbn in Hmsgs. rewrite Hmsgs.
    now rewrite <- List.app_assoc.
Qed.

End RunExtras.

(** ** More on tool results and on JSON text *)

(** X22: a tool result prints nothing exactly when it has no error, no
    output and no image ([None] and the empty string count as absent); it is
    then recorded as a tool result that is not an error and has an empty
    list as content. *)
Theorem silent_tool_result result :
  (print_tool_result result = []
   <-> truthy (error result) = false /\ truthy (output result) = false
       /\ truthy (base64_image result) = false)
  /\ (print_tool_result result = [] ->
      tool_result_content result = (false, JArr [])).
Proof.
  unfold print_tool_result, tool_result_content.
  destruct (truthy (error result)), (truthy (output result)),
    (truthy (base64_image result)); simpl;
    (split; [split; [intros H; try discriminate H; auto
                    | intros (H1 & H2 & H3); try discriminate; reflexivity]
            | intros H; try discriminate H; reflexivity]).
Qed.

(** X23: [json.loads] undoes [json.dumps], with or without indentation, on
    every value whose dictionaries have distinct keys: the text that [/save]
    writes for content, and the file it writes, read back as the values they
    were written from. *)
Theorem json_text_round_trip v :
  Json.well_formed v = true ->
  Json.loads (Json.dumps v) = Json.Value v
  /\ forall k, Json.loads (Json.dumps_indent k v) = Json.Value v.
Proof.
  intros Hwf. split; [|intros k]; now apply JsonFacts.loads_encode.
Qed.

(** ** The scripted session as an instance

    Each statement above with a premise, at a concrete session; and the
    inputs on which the specification's wording fails. *)

#[local] Existing Instance scripted.

(** C5 at a result with an error, an output and an image, and at a result
    with an output and an image and no error. *)
Lemma tool_result_error_witness :
  (error denied = Some "permission denied"
   /\ tool_result_block denied "toolu_02"
      = JObj [("type", JStr "tool_result");
              ("content", JStr "permission denied");
              ("tool_use_id", JStr "toolu_02");
              ("is_error", JBool true)])
  /\ (error shot = None
      /\ tool_result_block shot "toolu_02"
         = JObj [("type", JStr "tool_result");
                 ("content",
                  JArr [JObj [("type", JStr "text"); ("text", JStr "done")];
                        JObj [("type", JStr "image");
                              ("source",
                               JObj [("type", JStr "base64");
                                     ("media_type", JStr "image/png");
                                     ("data", JStr "aW1n")])]]);
                 ("tool_use_id", JStr "toolu_02");
                 ("is_error", JBool false)]).
Proof.
  split; (split; [reflexivity|]).
  - apply (proj1 (tool_result_error_replaces_output denied "toolu_02")
             "permission denied" eq_refl).
    discriminate.
  - exact (proj2 (tool_result_error_replaces_output shot "toolu_02")
             (or_introl eq_refl)).
Defined.

(** C1 (amended) at the turn with two tool uses. *)
Lemma tool_turn_witness :
  @create scripted (build_request (self two_tools_session))
    (world two_tools_session)
  = (Streams [one_chunk two_tools] None, [])
  /\ tool_uses (response_content_blocks [one_chunk two_tools]) <> []
  /\ exists appended,
       messages (self (snd (sampling_turn two_tools_session)))
       = (messages (self two_tools_session) ++ appended)%list
       /\ length appended = 3.
Proof.
  split; [reflexivity|]. split; [discriminate|].
  destruct (@tool_turn_appends_one_result_per_use scripted two_tools_session
              [] [one_chunk two_tools] eq_refl)
    as (appended & Hmsgs & Hlen & _).
  - discriminate.
  - reflexivity.
  - exists appended. split; [exact Hmsgs | exact Hlen].
Defined.

(** C1 as worded fails: with two tool uses the turn appends two user
    messages and then the assistant message, three messages and not two; and
    with one tool use the user message comes before the assistant message. *)
Lemma tool_results_are_not_batched :
  ~ batched_turn (messages (self two_tools_session))
      (messages (self (snd (sampling_turn two_tools_session))))
      (tool_uses two_tools)
  /\ ~ batched_turn (messages (self one_tool_session))
         (messages (self (snd (sampling_turn one_tool_session))))
         (tool_uses [list_files]).
Proof.
  split.
  - intros (a & u & results & Heq & _).
    vm_compute in Heq. discriminate Heq.
  - intros (a & u & results & Heq & Ha & _).
    vm_compute in Heq. injection Heq as Ea _. subst a.
    vm_compute in Ha. discriminate Ha.
Qed.

(** C2 (amended) at a stream that breaks after one fragment. *)
Lemma failed_turn_witness :
  @create scripted (build_request (self broken_session)) (world broken_session)
  = (Streams broken_stream (Some "Connection reset"), [])
  /\ messages (self (snd (sampling_turn broken_session)))
     = [user_message "hello"]
  /\ fst (sampling_loop 1 broken_session) = ReturnedAfter "Connection reset".
Proof.
  split; [reflexivity|].
  destruct (@failed_turn_leaves_transcript scripted broken_session []
              (Streams broken_stream (Some "Connection reset"))
              "Connection reset" eq_refl
              (or_intror (or_introl (ex_intro _ broken_stream eq_refl))))
    as (Hloop & _ & Hmsgs & _).
  split; [exact Hmsgs|]. now rewrite (Hloop 0).
Defined.

(** C2 as worded fails: the second tool of a turn raises before the turn
    is over; the turn fails, and the answer to the first tool use stays in
    the transcript. *)
Lemma raising_tool_leaves_result :
  fst (sampling_turn crashing_session)
  = Caught "EditTool.__call__() got an unexpected keyword argument 'file'"
  /\ messages (self (snd (sampling_turn crashing_session)))
     = [user_message "fix it";
        JObj [("content",
               JArr [JObj [("type", JStr "tool_result");
                           ("content",
                            JArr [JObj [("type", JStr "text");
                                        ("text",
                                         JStr ("a.txt" ++ Str.nl ++ "b.txt"))]]);
                           ("tool_use_id", JStr "toolu_01");
                           ("is_error", JBool false)]]);
              ("role", JStr "user")]]
  /\ messages (self (snd (sampling_turn crashing_session)))
     <> messages (self crashing_session).
Proof.
  split; [reflexivity|]. split; [reflexivity|].
  intros H. vm_compute in H. discriminate H.
Qed.

(** C3 (amended) at the response with an empty text and a thinking block. *)
Lemma assistant_message_witness :
  @create scripted (build_request (self thoughtful_session))
    (world thoughtful_session)
  = (Streams [one_chunk thoughtful] None, [])
  /\ exists appended,
       messages (self (snd (sampling_turn thoughtful_session)))
       = (messages (self thoughtful_session) ++ appended)%list
       /\ filter (has_role "assistant") appended
          = [JObj [("role", JStr "assistant");
                   ("content",
                    JArr [JObj [("type", JStr "text");
                                ("text", JStr "Hello!")]])]].
Proof.
  split; [reflexivity|].
  exact (@assistant_message_holds_recorded_blocks scripted thoughtful_session
           [] [one_chunk thoughtful] eq_refl eq_refl).
Defined.

(** C3 as worded fails: the empty text block and the thinking block of the
    response are not in the assistant message. *)
Lemma assistant_message_drops_blocks :
  ~ verbatim_turn (messages (self thoughtful_session))
      (messages (self (snd (sampling_turn thoughtful_session))))
      thoughtful.
Proof.
  intros (appended & Heq & Hin).
  change (messages (self (snd (sampling_turn thoughtful_session))))
    with (messages (self thoughtful_session)
          ++ [assistant_message [text_block "Hello!"]])%list
    in Heq.
  apply app_inv_head in Heq. subst appended.
  destruct Hin as [Heq | []]. discriminate Heq.
Qed.


(** C10 (amended) at a response without any block. *)
Lemma drained_stream_witness :
  @create scripted (build_request (self silent_session)) (world silent_session)
  = (Streams [mkChunk None] None, [])
  /\ appends_one_assistant (messages (self silent_session))
       (messages (self (snd (sampling_turn silent_session))))
  /\ messages (self (snd (sampling_turn silent_session)))
     = [user_message "hi";
        JObj [("role", JStr "assistant"); ("content", JArr [])]].
Proof.
  split; [reflexivity|].
  destruct (@drained_stream_appends_one_assistant scripted
              silent_session [] [mkChunk None] eq_refl) as [Hone Hnone].
  split; [exact (Hone eq_refl) | exact (proj1 (Hnone eq_refl))].
Defined.

(** C10 as worded fails: the stream is read to its end, the second tool
    raises, and no assistant message is appended. *)
Lemma raising_tool_appends_no_assistant :
  @create scripted (build_request (self crashing_session))
    (world crashing_session)
  = (Streams [one_chunk crashing] None, [])
  /\ ~ appends_one_assistant (messages (self crashing_session))
         (messages (self (snd (sampling_turn crashing_session)))).
Proof.
  split; [reflexivity|].
  intros (appended & Heq & Hone).
  change (messages (self (snd (sampling_turn crashing_session))))
    with (messages (self crashing_session)
          ++ [answer ("toolu_01", scripted_run "bash"
                                    (JObj [("command", JStr "ls")]))])%list
    in Heq.
  apply app_inv_head in Heq. subst appended. discriminate Hone.
Qed.

(** C6 (amended) at a transcript with a list and with a string that starts
    with a bracket and is not JSON. *)
Lemma save_then_load_witness :
  forallb portable (messages (self noted_session)) = true
  /\ messages (self (snd (handle_command "/load chat.json"
                            (snd (handle_command "/SAVE chat.json"
                                    noted_session)))))
     = [user_message "hi";
        JObj [("role", JStr "assistant");
              ("content", JStr "[Note] see above")]].
Proof.
  split; [reflexivity|].
  exact (proj1 (@save_then_load_restores scripted "/SAVE chat.json"
                  "/load chat.json" "/SAVE" "/load" "chat.json" [] []
                  noted_session eq_refl eq_refl eq_refl eq_refl eq_refl
                  eq_refl)).
Defined.

(** C6 as worded fails: content that is the string of two brackets comes
    back as the empty list. *)
Lemma bracket_string_is_not_preserved :
  messages (self (snd (handle_command "/load chat.json"
                         (snd (handle_command "/save chat.json"
                                 bracket_session)))))
  = [JObj [("role", JStr "user"); ("content", JArr [])]]
  /\ ~ Forall2 same_message (messages (self bracket_session))
         (messages (self (snd (handle_command "/load chat.json"
                                 (snd (handle_command "/save chat.json"
                                         bracket_session)))))).
Proof.
  assert (H : messages (self (snd (handle_command "/load chat.json"
                         (snd (handle_command "/save chat.json"
                                 bracket_session)))))
              = [JObj [("role", JStr "user"); ("content", JArr [])]])
    by (vm_compute; reflexivity).
  split; [exact H|].
  rewrite H. intros HF. inversion HF as [|m m' l l' [_ Hc] _]; subst.
  vm_compute in Hc. discriminate Hc.
Qed.

(** C8 at the session that has just started. *)
Lemma clear_empty_witness :
  messages (self empty_session) = []
  /\ self (snd (handle_command "/clear" empty_session)) = self empty_session.
Proof.
  split; [reflexivity|].
  exact (proj1 (@clear_empty_is_identity scripted empty_session eq_refl)).
Defined.

(** C9 at a save of the mixed transcript. *)
Lemma save_leaves_transcript_witness :
  Str.split "/save chat.json" = ["/save"; "chat.json"]
  /\ messages (self (snd (handle_command "/save chat.json" mixed_session)))
     = messages (self mixed_session).
Proof.
  split; [reflexivity|].
  exact (proj1 (proj2 (@save_leaves_transcript scripted "/save chat.json"
                         "/save" ["chat.json"] mixed_session
                         eq_refl eq_refl))).
Defined.

(** ** Instances of the further statements *)

(** X3 at [/help]. *)
Lemma other_commands_witness :
  command_word "/help" = Some "/help"
  /\ self (snd (handle_command "/help" mixed_session)) = self mixed_session.
Proof.
  split; [reflexivity|].
  apply (@other_commands_keep_transcript scripted "/help" mixed_session);
    intros H; vm_compute in H; discriminate H.
Defined.

(** X4 at a save under the second name of a file: the other file keeps its
    text. *)
Lemma commands_write_witness :
  command_file "/save ./a.json" = Some "./a.json"
  /\ path linked_files "./a.json" = "a.json"
  /\ texts (files (snd (handle_command "/save ./a.json" linked_session)))
       "b.json"
     = Some "{}".
Proof.
  split; [reflexivity|]. split; [reflexivity|].
  apply (@commands_write_only_named_file scripted "/save ./a.json"
           linked_session "b.json").
  intros name _ H. injection H as <-. discriminate.
Defined.

(** X5 at a transcript with a message without role. *)
Lemma save_empties_file_witness :
  forallb has_role_and_content (messages (self headless_session)) = false
  /\ contents (files (snd (handle_command "/save chat.json" headless_session)))
       "chat.json"
     = Some "".
Proof.
  split; [reflexivity|].
  apply (proj1 (@save_empties_file_on_bad_message scripted "/save chat.json"
                  "chat.json" headless_session eq_refl eq_refl eq_refl)).
  reflexivity.
Defined.

(** X6 at a file that is not there. *)
Lemma load_failure_witness :
  contents (files mixed_session) "nothing.json" = None
  /\ self (snd (handle_command "/load nothing.json" mixed_session))
     = self mixed_session.
Proof.
  split; [reflexivity|].
  exact (proj1 (@load_failure_keeps_transcript scripted "/load nothing.json"
                  "nothing.json" mixed_session eq_refl eq_refl
                  (or_introl eq_refl))).
Defined.

(** X7 at a file whose second message has no content. *)
Lemma load_keeps_messages_witness :
  Json.loads damaged_text
  = Json.Value
      (JArr ([user_message "hi"] ++ roleless :: [user_message "later"]))
  /\ messages (self (snd (handle_command "/load chat.json"
                            (with_file "chat.json" damaged_text
                               mixed_session))))
     = [user_message "hi"].
Proof.
  assert (H : Json.loads damaged_text
              = Json.Value (JArr ([user_message "hi"] ++ roleless
                                  :: [user_message "later"])))
    by (vm_compute; reflexivity).
  split; [exact H|].
  exact (proj1 (@load_keeps_messages_before_bad scripted "/load chat.json"
                  "chat.json" (with_file "chat.json" damaged_text mixed_session)
                  damaged_text [user_message "hi"] roleless
                  [user_message "later"] eq_refl eq_refl eq_refl H eq_refl
                  eq_refl)).
Defined.

(** X8 at a file that holds an integer, and at one that holds a float. *)
Lemma load_of_non_list_witness :
  (Json.loads "42" = Json.Value (JNum 42)
   /\ messages (self (snd (handle_command "/load chat.json"
                             (with_file "chat.json" "42" mixed_session))))
      = [])
  /\ (Json.loads "1.5" = Json.Beyond Json.AFloat
      /\ messages (self (snd (handle_command "/load chat.json"
                                (with_file "chat.json" "1.5" mixed_session))))
         = []).
Proof.
  split; (split; [reflexivity|]).
  - apply (@load_of_non_list_clears scripted "/load chat.json" "chat.json"
             (with_file "chat.json" "42" mixed_session) "42"
             eq_refl eq_refl eq_refl).
    left. exists (JNum 42). split; [reflexivity | discriminate].
  - apply (@load_of_non_list_clears scripted "/load chat.json" "chat.json"
             (with_file "chat.json" "1.5" mixed_session) "1.5"
             eq_refl eq_refl eq_refl).
    right. exists Json.AFloat. split; [reflexivity | discriminate].
Defined.

(** X9 at a file with one message: in whatever session it is loaded, the
    same transcript is left. *)
Lemma load_replaces_witness :
  Json.loads "[{}]" = Json.Value (JArr [JObj []])
  /\ exists outcome : option (list json),
       match outcome with
       | Some msgs =>
           messages (self (snd (handle_command "/load chat.json"
                                  (with_file "chat.json" "[{}]"
                                     mixed_session))))
           = msgs
           /\ messages (self (snd (handle_command "/load chat.json"
                                     (with_file "chat.json" "[{}]"
                                        empty_session))))
              = msgs
       | None => False
       end.
Proof.
  split; [reflexivity|].
  destruct (@load_replaces_transcript scripted "[{}]" (JArr [JObj []]) eq_refl)
    as (outcome & H).
  exists outcome.
  pose proof (H "/load chat.json" "chat.json"
                (with_file "chat.json" "[{}]" mixed_session)
                eq_refl eq_refl eq_refl) as H1.
  pose proof (H "/load chat.json" "chat.json"
                (with_file "chat.json" "[{}]" empty_session)
                eq_refl eq_refl eq_refl) as H2.
  destruct outcome as [msgs|].
  - split; [exact (proj1 H1) | exact (proj1 H2)].
  - discriminate H1.
Defined.

(** X10 at a transcript with a dictionary as content. *)
Lemma save_then_load_reloads_witness :
  forallb storable (messages (self dict_session)) = true
  /\ messages (self (snd (handle_command "/load chat.json"
                            (snd (handle_command "/save chat.json"
                                    dict_session)))))
     = map reloaded (messages (self dict_session)).
Proof.
  split; [reflexivity|].
  exact (@save_then_load_reloads scripted "/save chat.json" "/load chat.json"
           "chat.json" dict_session eq_refl eq_refl eq_refl eq_refl eq_refl
           eq_refl).
Defined.

(** X11 at the same transcript. *)
Lemma save_load_save_witness :
  writable (files dict_session) "chat.json" = true
  /\ contents
       (files (snd (handle_command "/save chat.json"
                      (snd (handle_command "/load chat.json"
                              (snd (handle_command "/save chat.json"
                                      dict_session)))))))
       "chat.json"
     = contents (files (snd (handle_command "/save chat.json" dict_session)))
         "chat.json".
Proof.
  split; [reflexivity|].
  exact (@save_load_save_same_file scripted "/save chat.json" "/load chat.json"
           "chat.json" dict_session eq_refl eq_refl eq_refl eq_refl eq_refl
           eq_refl).
Defined.

(** X14 at the turn with two tool uses. *)
Lemma assistant_message_last_witness :
  @create scripted (build_request (self two_tools_session))
    (world two_tools_session)
  = (Streams [one_chunk two_tools] None, [])
  /\ has_role "assistant"
       (last (messages (self (snd (sampling_turn two_tools_session)))) JNull)
     = true.
Proof.
  split; [reflexivity|].
  rewrite (proj2 (@assistant_message_comes_last scripted two_tools_session
                    [] [one_chunk two_tools] eq_refl eq_refl)).
  reflexivity.
Defined.

(** X15 at a response in two fragments. *)
Lemma echoed_text_witness :
  @create scripted (build_request (self plain_session)) (world plain_session)
  = (Streams [one_chunk [TextBlock (Some "Hel")];
              one_chunk [TextBlock (Some "lo")]] None, [])
  /\ exists shown,
       stdout (snd (sampling_turn plain_session)) = shown
       /\ written shown = "Hello".
Proof.
  split; [reflexivity|].
  destruct (@echoed_text_matches_assistant_message scripted plain_session []
              _ eq_refl eq_refl) as (shown & Hout & Hwritten & _).
  exists shown. split; [|exact Hwritten].
  rewrite Hout. simpl. now rewrite List.app_nil_r.
Defined.

(** X16 at a stream that breaks after a tool use. *)
Lemma broken_stream_witness :
  @create scripted (build_request (self broken_tool_session))
    (world broken_tool_session)
  = (Streams [one_chunk [list_files]] (Some "Connection reset"), [])
  /\ messages (self (snd (sampling_turn broken_tool_session)))
     = [user_message "list files"].
Proof.
  split; [reflexivity|].
  apply (proj1 (@broken_stream_runs_no_tool scripted broken_tool_session []
                  _ eq_refl)).
  discriminate.
Defined.

(** X17 at collaborators whose every response asks for a tool. *)
Lemma loop_goes_on_witness :
  fst (@sampling_loop insistent 5 insistent_session) = Running
  /\ length (sent (snd (@sampling_loop insistent 5 insistent_session))) = 5.
Proof.
  apply (@loop_goes_on_while_tools_are_used insistent).
  - intros request w. exists [one_chunk [list_files]], w.
    split; [reflexivity | discriminate].
  - intros name input w. exists (scripted_run name input), w. reflexivity.
Defined.

(** X19 at an [/exit] in capitals, with something after it. *)
Lemma exit_ends_run_witness :
  command_word (Str.strip "  /EXIT now ") = Some "/exit"
  /\ fst (run_loop 3 ["  /EXIT now "; "hello"] empty_session) = Exited.
Proof.
  split; [reflexivity|].
  now rewrite (@exit_ends_run scripted 3 "  /EXIT now " ["hello"]
                 empty_session eq_refl).
Defined.

(** X20 at a line of three spaces. *)
Lemma blank_line_witness :
  forallb Str.is_space (list_ascii_of_string "   ") = true
  /\ messages (self (prompted empty_session "   ")) = [user_message ""].
Proof.
  split; [reflexivity|].
  exact (proj1 (proj2 (@blank_line_is_sent scripted 0 "   " [] empty_session
                         eq_refl))).
Defined.

(** X21 at a call that is refused. *)
Lemma failed_turn_keeps_witness :
  @create scripted (build_request (self (prompted refused_session "hello")))
    (world refused_session)
  = (CallRaises "Connection error.", [])
  /\ exists s1 : @Session scripted,
       req_messages (build_request (self (prompted s1 "again")))
       = [user_message "hello"; user_message "again"].
Proof.
  split; [reflexivity|].
  destruct (@failed_turn_keeps_user_message scripted 0 "hello" "again" []
              refused_session [] (CallRaises "Connection error.")
              "Connection error." eq_refl eq_refl eq_refl
              (or_introl eq_refl))
    as (s1 & _ & _ & Hreq).
  exists s1. exact Hreq.
Defined.

(** X23 at the first message of a transcript. *)
Lemma json_round_trip_witness :
  Json.well_formed (user_message "hi") = true
  /\ Json.loads (Json.dumps (user_message "hi"))
     = Json.Value (user_message "hi").
Proof.
  split; [reflexivity|].
  exact (proj1 (json_text_round_trip (user_message "hi") eq_refl)).
Defined.
